(** * QRGenerator: payload derivation, encoder effect and action handlers

    A shallow embedding of [src/components/QRGenerator.tsx].

    - JavaScript strings are sequences of UTF-16 code units ([list N]).
    - A computation that may throw returns a [result].
    - The component's [useState] cells form the record [FormState]; the two
      [useEffect] bodies and the three click handlers are functions on it.
    - The collaborators the component does not own ([QRCode.toDataURL],
      [fetch], the clipboard, [navigator.share], [toast]) are an oracle
      ([Platform]) and a log of emitted effects. *)

From Stdlib Require Import List Arith NArith Bool String Ascii Lia.
Import ListNotations.
Open Scope N_scope.

(* ===================================================================== *)
(** ** JavaScript values used by the component *)
(* ===================================================================== *)

Module Js.

(** A string is a finite sequence of 16-bit code units. *)
Abbreviation code_unit := N (only parsing).
Abbreviation jsstring := (list N) (only parsing).

(** An ASCII literal of the source text, as code units. *)
Definition lit (s : string) : jsstring :=
  map N_of_ascii (list_ascii_of_string s).

(** [ToBoolean] on a string: only the empty string is falsy. *)
Definition truthy (s : jsstring) : bool :=
  match s with
  | [] => false
  | _ :: _ => true
  end.

(** [a || b] on strings. *)
Definition or_else (a b : jsstring) : jsstring :=
  if truthy a then a else b.

(** [`${b}`] for a boolean. *)
Definition string_of_bool (b : bool) : jsstring :=
  if b then lit "true" else lit "false".

Fixpoint eqb (a b : jsstring) : bool :=
  match a, b with
  | [], [] => true
  | x :: a', y :: b' => N.eqb x y && eqb a' b'
  | _, _ => false
  end.

(** Errors the modelled code can meet. *)
Inductive error :=
| URIError
| TypeError
| DOMException (name : jsstring).

(** Completion of a synchronous computation. *)
Inductive result (A : Type) :=
| Ok (a : A)
| Throw (e : error).
Arguments Ok {A} a.
Arguments Throw {A} e.

Definition bind {A B} (r : result A) (k : A -> result B) : result B :=
  match r with
  | Ok a => k a
  | Throw e => Throw e
  end.

Definition fmap {A B} (f : A -> B) (r : result A) : result B :=
  bind r (fun a => Ok (f a)).

End Js.

Import Js.

Declare Scope js_scope.
Delimit Scope js_scope with js.
Notation "x <- c ;; k" := (Js.bind c (fun x => k))
  (at level 61, c at next level, right associativity) : js_scope.
Infix "+++" := (@app code_unit) (right associativity, at level 60) : js_scope.
Open Scope js_scope.

(* ===================================================================== *)
(** ** [encodeURIComponent] (ECMA-262, abstract operation Encode) *)
(* ===================================================================== *)

Module URI.

Definition in_range (lo hi c : N) : bool := (lo <=? c) && (c <=? hi).

Definition is_alpha (c : N) : bool :=
  in_range 65 90 c || in_range 97 122 c.
Definition is_digit (c : N) : bool := in_range 48 57 c.

(** The marks [- _ . ! ~ * ' ( )]. *)
Definition is_mark (c : N) : bool :=
  existsb (N.eqb c) [45; 95; 46; 33; 126; 42; 39; 40; 41].

(** The code units [encodeURIComponent] copies unchanged. *)
Definition unescaped (c : N) : bool :=
  is_alpha c || is_digit c || is_mark c.

Definition is_lead (c : N) : bool := in_range 0xD800 0xDBFF c.
Definition is_trail (c : N) : bool := in_range 0xDC00 0xDFFF c.

(** UTF16SurrogatePairToCodePoint. *)
Definition pair_code_point (lead trail : N) : N :=
  (lead - 0xD800) * 0x400 + (trail - 0xDC00) + 0x10000.

(** The UTF-8 octets of a code point. *)
Definition utf8 (cp : N) : list N :=
  if cp <? 0x80 then [cp]
  else if cp <? 0x800 then
    [N.lor 0xC0 (N.shiftr cp 6); N.lor 0x80 (N.land cp 0x3F)]
  else if cp <? 0x10000 then
    [N.lor 0xE0 (N.shiftr cp 12);
     N.lor 0x80 (N.land (N.shiftr cp 6) 0x3F);
     N.lor 0x80 (N.land cp 0x3F)]
  else
    [N.lor 0xF0 (N.shiftr cp 18);
     N.lor 0x80 (N.land (N.shiftr cp 12) 0x3F);
     N.lor 0x80 (N.land (N.shiftr cp 6) 0x3F);
     N.lor 0x80 (N.land cp 0x3F)].

(** One upper-case hexadecimal digit. *)
Definition hex_digit (n : N) : N :=
  if n <? 10 then 48 + n else 55 + n.

Definition percent : N := 37.

(** ["%XY"] for one octet. *)
Definition escape_octet (o : N) : jsstring :=
  [percent; hex_digit (N.land (N.shiftr o 4) 15); hex_digit (N.land o 15)].

Definition escape_code_point (cp : N) : jsstring :=
  flat_map escape_octet (utf8 cp).

(** The loop of Encode: an unescaped unit is copied; otherwise the code
    point at the position is read (one unit, or a surrogate pair) and its
    UTF-8 octets are escaped; an unpaired surrogate throws [URIError]. *)
Fixpoint encodeURIComponent (s : jsstring) : result jsstring :=
  match s with
  | [] => Ok []
  | c :: rest =>
      if unescaped c then fmap (cons c) (encodeURIComponent rest)
      else if is_trail c then Throw URIError
      else if is_lead c then
        match rest with
        | d :: rest' =>
            if is_trail d
            then fmap (app (escape_code_point (pair_code_point c d)))
                      (encodeURIComponent rest')
            else Throw URIError
        | [] => Throw URIError
        end
      else fmap (app (escape_code_point c)) (encodeURIComponent rest)
  end.

(** A string without unpaired surrogates. *)
Fixpoint well_formed (s : jsstring) : bool :=
  match s with
  | [] => true
  | c :: rest =>
      if is_trail c then false
      else if is_lead c then
        match rest with
        | d :: rest' => is_trail d && well_formed rest'
        | [] => false
        end
      else well_formed rest
  end.

(** What an encoded string is made of. *)
Definition is_hex (c : N) : bool := is_digit c || in_range 65 70 c.
Definition uri_safe (c : N) : bool :=
  unescaped c || N.eqb c percent || is_hex c.

End URI.

(* ===================================================================== *)
(** ** The form state *)
(* ===================================================================== *)

Inductive QRType := url | text | email | phone | sms | contact | wifi.

Definition QRType_name (k : QRType) : jsstring :=
  match k with
  | url => lit "url"
  | text => lit "text"
  | email => lit "email"
  | phone => lit "phone"
  | sms => lit "sms"
  | contact => lit "contact"
  | wifi => lit "wifi"
  end.

Record EmailData := { e_email : jsstring; e_subject : jsstring; e_body : jsstring }.
Record SmsData := { s_phone : jsstring; s_message : jsstring }.

Record ContactData := {
  firstName : jsstring;
  lastName : jsstring;
  organization : jsstring;
  title : jsstring;
  c_email : jsstring;
  c_phone : jsstring;
  mobile : jsstring
}.

Record WiFiData := {
  ssid : jsstring;
  password : jsstring;
  security : jsstring;
  hidden : bool
}.

Record FormState := {
  qrData : jsstring;
  qrCode : jsstring;
  activeTab : QRType;
  trackScans : bool;
  removeWatermark : bool;
  urlData : jsstring;
  textData : jsstring;
  emailData : EmailData;
  phoneData : jsstring;
  smsData : SmsData;
  contactData : ContactData;
  wifiData : WiFiData
}.

(** The [useState] initial values. *)
Definition initialForm : FormState := {|
  qrData := [];
  qrCode := [];
  activeTab := url;
  trackScans := false;
  removeWatermark := false;
  urlData := [];
  textData := [];
  emailData := {| e_email := []; e_subject := []; e_body := [] |};
  phoneData := [];
  smsData := {| s_phone := []; s_message := [] |};
  contactData := {| firstName := []; lastName := []; organization := [];
                    title := []; c_email := []; c_phone := []; mobile := [] |};
  wifiData := {| ssid := []; password := []; security := lit "WPA";
                 hidden := false |}
|}.

(* ===================================================================== *)
(** ** The payload effect *)
(* ===================================================================== *)

Definition nl : jsstring := [10].

(** The [switch] of the first effect, as a function of its dependency
    array. *)
Definition formatPayload (activeTab : QRType) (urlData textData : jsstring)
    (emailData : EmailData) (phoneData : jsstring) (smsData : SmsData)
    (contactData : ContactData) (wifiData : WiFiData) : result jsstring :=
  match activeTab with
  | url => Ok (or_else urlData (lit "https://example.com"))
  | text => Ok (or_else textData (lit "Sample text"))
  | email =>
      subject <- URI.encodeURIComponent (e_subject emailData) ;;
      body <- URI.encodeURIComponent (e_body emailData) ;;
      Ok (lit "mailto:" +++ e_email emailData +++ lit "?subject=" +++ subject
          +++ lit "&body=" +++ body)
  | phone => Ok (lit "tel:" +++ phoneData)
  | sms =>
      message <- URI.encodeURIComponent (s_message smsData) ;;
      Ok (lit "sms:" +++ s_phone smsData +++ lit "?body=" +++ message)
  | contact =>
      Ok (lit "BEGIN:VCARD" +++ nl +++ lit "VERSION:3.0" +++ nl
          +++ lit "FN:" +++ firstName contactData +++ lit " "
          +++ lastName contactData +++ nl
          +++ lit "ORG:" +++ organization contactData +++ nl
          +++ lit "TITLE:" +++ title contactData +++ nl
          +++ lit "EMAIL:" +++ c_email contactData +++ nl
          +++ lit "TEL:" +++ c_phone contactData +++ nl
          +++ lit "TEL;TYPE=CELL:" +++ mobile contactData +++ nl
          +++ lit "END:VCARD")
  | wifi =>
      Ok (lit "WIFI:T:" +++ security wifiData
          +++ lit ";S:" +++ ssid wifiData
          +++ lit ";P:" +++ password wifiData
          +++ lit ";H:" +++ string_of_bool (hidden wifiData) +++ lit ";")
  end.

Definition payloadOf (f : FormState) : result jsstring :=
  formatPayload (activeTab f) (urlData f) (textData f) (emailData f)
    (phoneData f) (smsData f) (contactData f) (wifiData f).

(* ===================================================================== *)
(** ** The component instance and its surroundings *)
(* ===================================================================== *)

(** Settlement of a promise. *)
Inductive outcome (A : Type) :=
| Fulfilled (a : A)
| Rejected (e : error).
Arguments Fulfilled {A} a.
Arguments Rejected {A} e.

Record Toast := {
  t_title : jsstring;
  t_description : jsstring;
  t_destructive : bool
}.

(** The arguments of [QRCode.toDataURL]. *)
Record EncodeRequest := {
  req_text : jsstring;
  req_width : N;
  req_margin : N;
  req_dark : jsstring;
  req_light : jsstring
}.

Definition Blob := list N.
Record Response := { r_body : Blob }.
Record ClipboardItem := { ci_type : jsstring; ci_blob : Blob }.
Record File := { f_bits : list Blob; f_name : jsstring; f_type : jsstring }.
Record ShareData := { sd_title : jsstring; sd_files : list File }.

(** What the browser answers to the handlers' calls. *)
Record Platform := {
  has_share : bool;   (* [navigator.share] is defined *)
  fetch : jsstring -> outcome Response;
  blob : Response -> outcome Blob;
  clipboard_write : list ClipboardItem -> outcome unit;
  share : ShareData -> outcome unit
}.

(** What leaves the component. *)
Inductive Effect :=
| SaveAs (download href : jsstring)   (* [link.click()] *)
| Notice (t : Toast)                  (* [toast(...)] *)
| ToClipboard (items : list ClipboardItem)
| ToShare (data : ShareData).

Record App := {
  form : FormState;
  inflight : list (nat * EncodeRequest);   (* pending [toDataURL(..).then(setQrCode)] *)
  fresh : nat;                              (* id of the next promise *)
  outbox : list Effect;
  uncaught : list error;                    (* rejections and errors nobody handled *)
  unmounted : bool                          (* an effect threw during commit *)
}.

Definition with_form (g : FormState -> FormState) (a : App) : App :=
  {| form := g (form a); inflight := inflight a; fresh := fresh a;
     outbox := outbox a; uncaught := uncaught a; unmounted := unmounted a |}.

Definition with_outbox (g : list Effect -> list Effect) (a : App) : App :=
  {| form := form a; inflight := inflight a; fresh := fresh a;
     outbox := g (outbox a); uncaught := uncaught a; unmounted := unmounted a |}.

Definition with_inflight (g : list (nat * EncodeRequest) -> list (nat * EncodeRequest))
    (a : App) : App :=
  {| form := form a; inflight := g (inflight a); fresh := fresh a;
     outbox := outbox a; uncaught := uncaught a; unmounted := unmounted a |}.

Definition with_uncaught (e : error) (a : App) : App :=
  {| form := form a; inflight := inflight a; fresh := fresh a;
     outbox := outbox a; uncaught := uncaught a ++ [e]; unmounted := unmounted a |}.

Definition unmount (a : App) : App :=
  {| form := form a; inflight := inflight a; fresh := fresh a;
     outbox := outbox a; uncaught := uncaught a; unmounted := true |}.

(** *** The state setters *)

Definition setQrData (v : jsstring) (f : FormState) : FormState :=
  {| qrData := v; qrCode := qrCode f; activeTab := activeTab f;
     trackScans := trackScans f; removeWatermark := removeWatermark f;
     urlData := urlData f; textData := textData f; emailData := emailData f;
     phoneData := phoneData f; smsData := smsData f;
     contactData := contactData f; wifiData := wifiData f |}.

Definition setQrCode (v : jsstring) (f : FormState) : FormState :=
  {| qrData := qrData f; qrCode := v; activeTab := activeTab f;
     trackScans := trackScans f; removeWatermark := removeWatermark f;
     urlData := urlData f; textData := textData f; emailData := emailData f;
     phoneData := phoneData f; smsData := smsData f;
     contactData := contactData f; wifiData := wifiData f |}.

Definition setActiveTab (v : QRType) (f : FormState) : FormState :=
  {| qrData := qrData f; qrCode := qrCode f; activeTab := v;
     trackScans := trackScans f; removeWatermark := removeWatermark f;
     urlData := urlData f; textData := textData f; emailData := emailData f;
     phoneData := phoneData f; smsData := smsData f;
     contactData := contactData f; wifiData := wifiData f |}.

Definition setTrackScans (v : bool) (f : FormState) : FormState :=
  {| qrData := qrData f; qrCode := qrCode f; activeTab := activeTab f;
     trackScans := v; removeWatermark := removeWatermark f;
     urlData := urlData f; textData := textData f; emailData := emailData f;
     phoneData := phoneData f; smsData := smsData f;
     contactData := contactData f; wifiData := wifiData f |}.

Definition setRemoveWatermark (v : bool) (f : FormState) : FormState :=
  {| qrData := qrData f; qrCode := qrCode f; activeTab := activeTab f;
     trackScans := trackScans f; removeWatermark := v;
     urlData := urlData f; textData := textData f; emailData := emailData f;
     phoneData := phoneData f; smsData := smsData f;
     contactData := contactData f; wifiData := wifiData f |}.

Definition setUrlData (v : jsstring) (f : FormState) : FormState :=
  {| qrData := qrData f; qrCode := qrCode f; activeTab := activeTab f;
     trackScans := trackScans f; removeWatermark := removeWatermark f;
     urlData := v; textData := textData f; emailData := emailData f;
     phoneData := phoneData f; smsData := smsData f;
     contactData := contactData f; wifiData := wifiData f |}.

Definition setTextData (v : jsstring) (f : FormState) : FormState :=
  {| qrData := qrData f; qrCode := qrCode f; activeTab := activeTab f;
     trackScans := trackScans f; removeWatermark := removeWatermark f;
     urlData := urlData f; textData := v; emailData := emailData f;
     phoneData := phoneData f; smsData := smsData f;
     contactData := contactData f; wifiData := wifiData f |}.

Definition setEmailData (v : EmailData) (f : FormState) : FormState :=
  {| qrData := qrData f; qrCode := qrCode f; activeTab := activeTab f;
     trackScans := trackScans f; removeWatermark := removeWatermark f;
     urlData := urlData f; textData := textData f; emailData := v;
     phoneData := phoneData f; smsData := smsData f;
     contactData := contactData f; wifiData := wifiData f |}.

Definition setPhoneData (v : jsstring) (f : FormState) : FormState :=
  {| qrData := qrData f; qrCode := qrCode f; activeTab := activeTab f;
     trackScans := trackScans f; removeWatermark := removeWatermark f;
     urlData := urlData f; textData := textData f; emailData := emailData f;
     phoneData := v; smsData := smsData f;
     contactData := contactData f; wifiData := wifiData f |}.

Definition setSmsData (v : SmsData) (f : FormState) : FormState :=
  {| qrData := qrData f; qrCode := qrCode f; activeTab := activeTab f;
     trackScans := trackScans f; removeWatermark := removeWatermark f;
     urlData := urlData f; textData := textData f; emailData := emailData f;
     phoneData := phoneData f; smsData := v;
     contactData := contactData f; wifiData := wifiData f |}.

Definition setContactData (v : ContactData) (f : FormState) : FormState :=
  {| qrData := qrData f; qrCode := qrCode f; activeTab := activeTab f;
     trackScans := trackScans f; removeWatermark := removeWatermark f;
     urlData := urlData f; textData := textData f; emailData := emailData f;
     phoneData := phoneData f; smsData := smsData f;
     contactData := v; wifiData := wifiData f |}.

Definition setWifiData (v : WiFiData) (f : FormState) : FormState :=
  {| qrData := qrData f; qrCode := qrCode f; activeTab := activeTab f;
     trackScans := trackScans f; removeWatermark := removeWatermark f;
     urlData := urlData f; textData := textData f; emailData := emailData f;
     phoneData := phoneData f; smsData := smsData f;
     contactData := contactData f; wifiData := v |}.

(* ===================================================================== *)
(** ** Actions: code that runs against the component instance *)
(* ===================================================================== *)

(** An action may update the instance and may throw. *)
Definition action (A : Type) := App -> result A * App.

Module Act.

Definition ret {A} (x : A) : action A := fun a => (Ok x, a).

Definition bind {A B} (c : action A) (k : A -> action B) : action B :=
  fun a =>
    match c a with
    | (Ok x, a') => k x a'
    | (Throw e, a') => (Throw e, a')
    end.

(** A synchronous computation inside an action. *)
Definition lift {A} (r : result A) : action A := fun a => (r, a).

(** [await p]: the value of a fulfilled promise, or its reason thrown. *)
Definition await {A} (o : outcome A) : action A :=
  fun a =>
    match o with
    | Fulfilled x => (Ok x, a)
    | Rejected e => (Throw e, a)
    end.

(** [try { body } catch (err) { handler }]. *)
Definition try_catch {A} (body : action A) (handler : error -> action A)
    : action A :=
  fun a =>
    match body a with
    | (Ok x, a') => (Ok x, a')
    | (Throw e, a') => handler e a'
    end.

(** A [useState] setter. *)
Definition setState (g : FormState -> FormState) : action unit :=
  fun a => (Ok tt, with_form g a).

Definition emit (e : Effect) : action unit :=
  fun a => (Ok tt, with_outbox (fun o => o ++ [e]) a).

Definition toast (t : Toast) : action unit := emit (Notice t).

(** [QRCode.toDataURL(text, options).then(setQrCode)]: a new promise whose
    only continuation is [setQrCode]. *)
Definition toDataURL_then_setQrCode (req : EncodeRequest) : action unit :=
  fun a =>
    (Ok tt,
     {| form := form a; inflight := inflight a ++ [(fresh a, req)];
        fresh := S (fresh a); outbox := outbox a; uncaught := uncaught a;
        unmounted := unmounted a |}).

End Act.

Declare Scope act_scope.
Delimit Scope act_scope with act.
Notation "x <- c ;; k" := (Act.bind c (fun x => k))
  (at level 61, c at next level, right associativity) : act_scope.
Notation "c ;; k" := (Act.bind c (fun _ => k))
  (at level 61, right associativity) : act_scope.

(** *** The two effects *)

(** First effect: derive the payload and store it. *)
Definition payloadEffect (f : FormState) : action unit :=
  (data <- Act.lift (payloadOf f) ;;
   Act.setState (setQrData data))%act.

Definition encodeOptions (text : jsstring) : EncodeRequest :=
  {| req_text := text; req_width := 300; req_margin := 2;
     req_dark := lit "#000000"; req_light := lit "#FFFFFF" |}.

(** Second effect: encode the payload unless it is empty. *)
Definition encodeEffect (f : FormState) : action unit :=
  if truthy (qrData f)
  then Act.toDataURL_then_setQrCode (encodeOptions (qrData f))
  else Act.ret tt.

(** *** The three handlers; [f] is the render the handler closes over *)

Definition downloadedToast : Toast :=
  {| t_title := lit "QR Code Downloaded";
     t_description := lit "Your QR code has been saved successfully!";
     t_destructive := false |}.

Definition copiedToast : Toast :=
  {| t_title := lit "QR Code Copied";
     t_description := lit "QR code copied to clipboard!";
     t_destructive := false |}.

Definition copyFailedToast : Toast :=
  {| t_title := lit "Copy Failed";
     t_description := lit "Unable to copy QR code to clipboard.";
     t_destructive := true |}.

Definition shareFailedToast : Toast :=
  {| t_title := lit "Share Failed";
     t_description := lit "Unable to share QR code.";
     t_destructive := true |}.

Definition fileName (f : FormState) : jsstring :=
  lit "qr-code-" +++ QRType_name (activeTab f) +++ lit ".png".

Definition downloadQR (f : FormState) : action unit :=
  if truthy (qrCode f) then
    (Act.emit (SaveAs (fileName f) (qrCode f)) ;;
     Act.toast downloadedToast)%act
  else Act.ret tt.

Definition copyQR (p : Platform) (f : FormState) : action unit :=
  if truthy (qrCode f) then
    Act.try_catch
      (response <- Act.await (fetch p (qrCode f)) ;;
       blob <- Act.await (blob p response) ;;
       let items := [ {| ci_type := lit "image/png"; ci_blob := blob |} ] in
       Act.emit (ToClipboard items) ;;
       Act.await (clipboard_write p items) ;;
       Act.toast copiedToast)%act
      (fun err => Act.toast copyFailedToast)
  else Act.ret tt.

Definition shareQR (p : Platform) (f : FormState) : action unit :=
  if has_share p && truthy (qrCode f) then
    Act.try_catch
      (response <- Act.await (fetch p (qrCode f)) ;;
       blob <- Act.await (blob p response) ;;
       let file := {| f_bits := [blob]; f_name := fileName f;
                      f_type := lit "image/png" |} in
       let data := {| sd_title := lit "QR Code"; sd_files := [file] |} in
       Act.emit (ToShare data) ;;
       Act.await (share p data))%act
      (fun err => Act.toast shareFailedToast)
  else Act.ret tt.

(* ===================================================================== *)
(** ** The event loop *)
(* ===================================================================== *)

Definition QRType_eqb (a b : QRType) : bool :=
  match a, b with
  | url, url | text, text | email, email | phone, phone
  | sms, sms | contact, contact | wifi, wifi => true
  | _, _ => false
  end.

(** What the user can do to the fields (the [onChange] handlers). *)
Inductive Input :=
| SelectTab (k : QRType)
| TypeUrl (v : jsstring)
| TypeText (v : jsstring)
| TypeEmailAddress (v : jsstring)
| TypeEmailSubject (v : jsstring)
| TypeEmailBody (v : jsstring)
| TypePhone (v : jsstring)
| TypeSmsPhone (v : jsstring)
| TypeSmsMessage (v : jsstring)
| TypeFirstName (v : jsstring)
| TypeLastName (v : jsstring)
| TypeOrganization (v : jsstring)
| TypeTitle (v : jsstring)
| TypeContactEmail (v : jsstring)
| TypeContactPhone (v : jsstring)
| TypeMobile (v : jsstring)
| TypeSsid (v : jsstring)
| TypePassword (v : jsstring)
| SwitchHidden (v : bool)
| SwitchTrackScans (v : bool)
| SwitchRemoveWatermark (v : bool).

Definition applyInput (i : Input) (f : FormState) : FormState :=
  let e := emailData f in
  let s := smsData f in
  let c := contactData f in
  let w := wifiData f in
  match i with
  | SelectTab k => setActiveTab k f
  | TypeUrl v => setUrlData v f
  | TypeText v => setTextData v f
  | TypeEmailAddress v =>
      setEmailData {| e_email := v; e_subject := e_subject e; e_body := e_body e |} f
  | TypeEmailSubject v =>
      setEmailData {| e_email := e_email e; e_subject := v; e_body := e_body e |} f
  | TypeEmailBody v =>
      setEmailData {| e_email := e_email e; e_subject := e_subject e; e_body := v |} f
  | TypePhone v => setPhoneData v f
  | TypeSmsPhone v => setSmsData {| s_phone := v; s_message := s_message s |} f
  | TypeSmsMessage v => setSmsData {| s_phone := s_phone s; s_message := v |} f
  | TypeFirstName v =>
      setContactData
        {| firstName := v; lastName := lastName c; organization := organization c;
           title := title c; c_email := c_email c; c_phone := c_phone c;
           mobile := mobile c |} f
  | TypeLastName v =>
      setContactData
        {| firstName := firstName c; lastName := v; organization := organization c;
           title := title c; c_email := c_email c; c_phone := c_phone c;
           mobile := mobile c |} f
  | TypeOrganization v =>
      setContactData
        {| firstName := firstName c; lastName := lastName c; organization := v;
           title := title c; c_email := c_email c; c_phone := c_phone c;
           mobile := mobile c |} f
  | TypeTitle v =>
      setContactData
        {| firstName := firstName c; lastName := lastName c;
           organization := organization c; title := v; c_email := c_email c;
           c_phone := c_phone c; mobile := mobile c |} f
  | TypeContactEmail v =>
      setContactData
        {| firstName := firstName c; lastName := lastName c;
           organization := organization c; title := title c; c_email := v;
           c_phone := c_phone c; mobile := mobile c |} f
  | TypeContactPhone v =>
      setContactData
        {| firstName := firstName c; lastName := lastName c;
           organization := organization c; title := title c;
           c_email := c_email c; c_phone := v; mobile := mobile c |} f
  | TypeMobile v =>
      setContactData
        {| firstName := firstName c; lastName := lastName c;
           organization := organization c; title := title c;
           c_email := c_email c; c_phone := c_phone c; mobile := v |} f
  | TypeSsid v =>
      setWifiData {| ssid := v; password := password w; security := security w;
                      hidden := hidden w |} f
  | TypePassword v =>
      setWifiData {| ssid := ssid w; password := v; security := security w;
                      hidden := hidden w |} f
  | SwitchHidden v =>
      setWifiData {| ssid := ssid w; password := password w;
                      security := security w; hidden := v |} f
  | SwitchTrackScans v => setTrackScans v f
  | SwitchRemoveWatermark v => setRemoveWatermark v f
  end.

(** Whether the input changes an entry of the first effect's dependency
    array: a string or a tab is compared by value, an object written by a
    setter is always a new object, and the two switches are not
    dependencies. *)
Definition recomputes (i : Input) (f : FormState) : bool :=
  match i with
  | SelectTab k => negb (QRType_eqb k (activeTab f))
  | TypeUrl v => negb (eqb v (urlData f))
  | TypeText v => negb (eqb v (textData f))
  | TypePhone v => negb (eqb v (phoneData f))
  | SwitchTrackScans _ | SwitchRemoveWatermark _ => false
  | _ => true
  end.

(** The render that follows a change of [qrData]: the second effect runs
    when its only dependency differs from the previous render's. *)
Definition rerender (prev : FormState) (a : App) : App :=
  if eqb (qrData prev) (qrData (form a)) then a
  else snd (encodeEffect (form a) a).

(** An error thrown by an effect is not caught in the component: the
    tree is unmounted. *)
Definition crash (e : error) (a : App) : App := unmount (with_uncaught e a).

(** A render in which a dependency of the first effect changed. *)
Definition recompute (a : App) : App :=
  match payloadEffect (form a) a with
  | (Ok _, a') => rerender (form a) a'
  | (Throw e, a') => crash e a'
  end.

Definition dispatch (i : Input) (a : App) : App :=
  let a' := with_form (applyInput i) a in
  if recomputes i (form a) then recompute a' else a'.

Definition initialApp : App :=
  {| form := initialForm; inflight := []; fresh := 0%nat; outbox := [];
     uncaught := []; unmounted := false |}.

(** Mounting: both effects run after the first render, the second one
    with the first render's [qrData]; the state change of the first effect
    causes the second render. *)
Definition mount : App :=
  match (payloadEffect initialForm ;; encodeEffect initialForm)%act initialApp with
  | (Ok _, a) => rerender initialForm a
  | (Throw e, a) => crash e a
  end.

Fixpoint lookup (id : nat) (l : list (nat * EncodeRequest)) : option EncodeRequest :=
  match l with
  | [] => None
  | (k, r) :: l' => if Nat.eqb k id then Some r else lookup id l'
  end.

Definition remove (id : nat) (l : list (nat * EncodeRequest)) :=
  filter (fun kr => negb (Nat.eqb (fst kr) id)) l.

(** The promise [id] settles: [setQrCode] on fulfilment; on rejection
    the derived promise has no handler. *)
Definition settle (id : nat) (o : outcome jsstring) (a : App) : App :=
  match lookup id (inflight a) with
  | None => a
  | Some _ =>
      let a' := with_inflight (remove id) a in
      match o with
      | Fulfilled img => with_form (setQrCode img) a'
      | Rejected e => with_uncaught e a'
      end
  end.

(** A click: what the handler throws, if anything, reaches nobody. *)
Definition click (h : action unit) (a : App) : App :=
  match h a with
  | (Ok _, a') => a'
  | (Throw e, a') => with_uncaught e a'
  end.

Inductive Event :=
| UserInput (i : Input)
| EncodeSettled (id : nat) (o : outcome jsstring)
| ClickDownload
| ClickCopy (p : Platform)
| ClickShare (p : Platform).

Definition step (ev : Event) (a : App) : App :=
  if unmounted a then a
  else
    match ev with
    | UserInput i => dispatch i a
    | EncodeSettled id o => settle id o a
    | ClickDownload => click (downloadQR (form a)) a
    | ClickCopy p => click (copyQR p (form a)) a
    | ClickShare p => click (shareQR p (form a)) a
    end.

Definition run (evs : list Event) (a : App) : App :=
  fold_left (fun a ev => step ev a) evs a.

(** The states the mounted component can be in. *)
Inductive reachable : App -> Prop :=
| reach_mount : reachable mount
| reach_step ev a : reachable a -> reachable (step ev a).

(* ===================================================================== *)
(** ** Vocabulary of the statements *)
(* ===================================================================== *)

(** [Array.prototype.join]. *)
Fixpoint join (sep : jsstring) (l : list jsstring) : jsstring :=
  match l with
  | [] => []
  | [x] => x
  | x :: rest => x +++ sep +++ join sep rest
  end.

(** The lines of a text, cut at each line feed. *)
Fixpoint split_lines (s : jsstring) : list jsstring :=
  match s with
  | [] => [[]]
  | c :: rest =>
      if N.eqb c 10 then [] :: split_lines rest
      else match split_lines rest with
           | l :: ls => (c :: l) :: ls
           | [] => [[c]]
           end
  end.

Definition no_line_feed (s : jsstring) : bool :=
  forallb (fun c => negb (N.eqb c 10)) s.

(** The lines of the contact card, in the order of the spec's table. *)
Definition vcard_lines (c : ContactData) : list jsstring :=
  [ lit "BEGIN:VCARD";
    lit "VERSION:3.0";
    lit "FN:" +++ firstName c +++ lit " " +++ lastName c;
    lit "ORG:" +++ organization c;
    lit "TITLE:" +++ title c;
    lit "EMAIL:" +++ c_email c;
    lit "TEL:" +++ c_phone c;
    lit "TEL;TYPE=CELL:" +++ mobile c;
    lit "END:VCARD" ].

Definition jane : ContactData :=
  {| firstName := lit "Jane"; lastName := lit "Doe"; organization := lit "Acme";
     title := lit "Eng"; c_email := lit "j@acme.com"; c_phone := lit "111";
     mobile := lit "222" |}.

(** The notices among the emitted effects. *)
Fixpoint notices (l : list Effect) : list Toast :=
  match l with
  | [] => []
  | Notice t :: l' => t :: notices l'
  | _ :: l' => notices l'
  end.

(** The copy does not go through: the fetch, the blob or the clipboard
    write is rejected. *)
Definition copy_fails (p : Platform) (f : FormState) : bool :=
  match fetch p (qrCode f) with
  | Rejected _ => true
  | Fulfilled r =>
      match blob p r with
      | Rejected _ => true
      | Fulfilled b =>
          match clipboard_write p [ {| ci_type := lit "image/png"; ci_blob := b |} ] with
          | Rejected _ => true
          | Fulfilled _ => false
          end
      end
  end.

Definition share_fails (p : Platform) (f : FormState) : bool :=
  match fetch p (qrCode f) with
  | Rejected _ => true
  | Fulfilled r =>
      match blob p r with
      | Rejected _ => true
      | Fulfilled b =>
          match share p {| sd_title := lit "QR Code";
                           sd_files := [ {| f_bits := [b]; f_name := fileName f;
                                            f_type := lit "image/png" |} ] |} with
          | Rejected _ => true
          | Fulfilled _ => false
          end
      end
  end.

(** A browser on which everything works, and some on which it does not. *)
Definition pngOf (u : jsstring) : Response := {| r_body := u |}.

Definition goodPlatform : Platform :=
  {| has_share := true;
     fetch := fun u => Fulfilled (pngOf u);
     blob := fun r => Fulfilled (r_body r);
     clipboard_write := fun _ => Fulfilled tt;
     share := fun _ => Fulfilled tt |}.

Definition deniedPlatform : Platform :=
  {| has_share := true;
     fetch := fun u => Fulfilled (pngOf u);
     blob := fun r => Fulfilled (r_body r);
     clipboard_write := fun _ => Rejected (DOMException (lit "NotAllowedError"));
     share := fun _ => Rejected (DOMException (lit "AbortError")) |}.

Definition noSharePlatform : Platform :=
  {| has_share := false;
     fetch := fun u => Fulfilled (pngOf u);
     blob := fun r => Fulfilled (r_body r);
     clipboard_write := fun _ => Fulfilled tt;
     share := fun _ => Rejected TypeError |}.

(** The mounted form once its first encode has resolved. *)
Definition shown : App :=
  step (EncodeSettled 0 (Fulfilled (lit "data:image/png;base64,AAAA"))) mount.

(** Sample inputs. *)
Definition typed_a : Input := TypeUrl (lit "a").
Definition typed_ab : Input := TypeUrl (lit "ab").

Definition pasted_placeholder : Input := TypeUrl (lit "https://example.com").

Definition half_emoji : EmailData :=
  {| e_email := lit "a@b.com"; e_subject := [0xD83D]; e_body := [] |}.

(* ===================================================================== *)
(** ** The rest of the component: fields, rendering, derived notions *)
(* ===================================================================== *)

(** The tab on which the field of an input is shown; the tab list and the
    two option switches belong to no tab. *)
Definition tabOf (i : Input) : option QRType :=
  match i with
  | SelectTab _ => None
  | TypeUrl _ => Some url
  | TypeText _ => Some text
  | TypeEmailAddress _ | TypeEmailSubject _ | TypeEmailBody _ => Some email
  | TypePhone _ => Some phone
  | TypeSmsPhone _ | TypeSmsMessage _ => Some sms
  | TypeFirstName _ | TypeLastName _ | TypeOrganization _ | TypeTitle _
  | TypeContactEmail _ | TypeContactPhone _ | TypeMobile _ => Some contact
  | TypeSsid _ | TypePassword _ | SwitchHidden _ => Some wifi
  | SwitchTrackScans _ | SwitchRemoveWatermark _ => None
  end.



(** The tabs whose payload is a template with a fixed head. *)
Definition templated (k : QRType) : bool :=
  match k with
  | url | text => false
  | _ => true
  end.

Definition headOf (k : QRType) : jsstring :=
  match k with
  | url | text => []
  | email => lit "mailto:"
  | phone => lit "tel:"
  | sms => lit "sms:"
  | contact => lit "BEGIN:VCARD" +++ nl +++ lit "VERSION:3.0" +++ nl +++ lit "FN:"
  | wifi => lit "WIFI:T:"
  end.

(** The free-text fields the active tab percent-encodes hold an unpaired
    surrogate. *)
Definition ill_formed_text (f : FormState) : bool :=
  match activeTab f with
  | email =>
      negb (URI.well_formed (e_subject (emailData f))
            && URI.well_formed (e_body (emailData f)))
  | sms => negb (URI.well_formed (s_message (smsData f)))
  | _ => false
  end.


Definition ids (l : list (nat * EncodeRequest)) : list nat := map fst l.

(** An in-flight request as the second effect makes them. *)
Definition well_made (bound : nat) (kr : nat * EncodeRequest) : Prop :=
  (fst kr < bound)%nat
  /\ snd kr = encodeOptions (req_text (snd kr))
  /\ req_text (snd kr) <> [].

(** What one event does to the promises in flight. *)
Inductive promise_change (ev : Event) (a a' : App) : Prop :=
| none_started :
    inflight a' = inflight a -> fresh a' = fresh a ->
    promise_change ev a a'
| one_started i :
    ev = UserInput i ->
    qrData (form a') <> qrData (form a) ->
    qrData (form a') <> [] ->
    inflight a' = inflight a ++ [(fresh a, encodeOptions (qrData (form a')))] ->
    fresh a' = S (fresh a) ->
    promise_change ev a a'
| one_settled id o :
    ev = EncodeSettled id o ->
    lookup id (inflight a) <> None ->
    inflight a' = remove id (inflight a) -> fresh a' = fresh a ->
    promise_change ev a a'.

(** More sample states and inputs. *)
Definition onEmailTab : App := step (UserInput (SelectTab email)) shown.
Definition onSmsTab : App := step (UserInput (SelectTab sms)) shown.

(* ===================================================================== *)
(** ** Facts about strings and [encodeURIComponent] *)
(* ===================================================================== *)

Lemma eqb_refl (s : jsstring) : eqb s s = true.
Proof.
  induction s as [|c s IH]; simpl; [reflexivity|].
  now rewrite N.eqb_refl, IH.
Qed.

Lemma eqb_eq (a b : jsstring) : eqb a b = true <-> a = b.
Proof.
  split.
  - revert b; induction a as [|x a IH]; intros [|y b]; simpl; try easy.
    intros H; apply andb_true_iff in H as [Hx Hr].
    apply N.eqb_eq in Hx; subst y. now rewrite (IH b Hr).
  - intros ->; apply eqb_refl.
Qed.

Lemma eqb_neq (a b : jsstring) : eqb a b = false <-> a <> b.
Proof.
  rewrite <- eqb_eq. destruct (eqb a b); split; congruence.
Qed.

Lemma truthy_nonempty (s : jsstring) : truthy s = true <-> s <> [].
Proof. destruct s; simpl; split; congruence. Qed.

Module URIFacts.
Import URI.

Ltac range_cases :=
  unfold is_hex, is_digit, is_alpha, in_range in *;
  repeat match goal with
         | |- context [?a <=? ?b] => destruct (N.leb_spec a b)
         end;
  simpl; try reflexivity; try lia.

Lemma nibble_bound (x : N) : N.land x 15 < 16.
Proof.
  change 15 with (N.ones 4). rewrite N.land_ones.
  apply N.mod_lt. discriminate.
Qed.

Lemma hex_digit_is_hex (n : N) : n < 16 -> is_hex (hex_digit n) = true.
Proof.
  intros H. unfold hex_digit.
  destruct (N.ltb_spec n 10); range_cases.
Qed.

Lemma escape_octet_safe (o : N) : forallb uri_safe (escape_octet o) = true.
Proof.
  unfold escape_octet; cbn [forallb].
  assert (Hh : forall n, n < 16 -> uri_safe (hex_digit n) = true).
  { intros n Hn. unfold uri_safe. rewrite (hex_digit_is_hex n Hn).
    now rewrite orb_true_r. }
  rewrite !Hh by apply nibble_bound. reflexivity.
Qed.

Lemma escape_code_point_safe (cp : N) :
  forallb uri_safe (escape_code_point cp) = true.
Proof.
  unfold escape_code_point. generalize (utf8 cp) as os.
  induction os as [|o os IH]; [reflexivity|].
  cbn [flat_map]. rewrite forallb_app.
  apply andb_true_intro; split; [apply escape_octet_safe | exact IH].
Qed.

(** Induction that follows the recursion of [encodeURIComponent]: one or
    two code units are consumed at a time. *)
Lemma two_step_ind (P : jsstring -> Prop) :
  P [] ->
  (forall c rest, P rest -> (forall d rest', rest = d :: rest' -> P rest') ->
                  P (c :: rest)) ->
  forall s, P s.
Proof.
  intros Hnil Hcons s.
  enough (H : P s /\ (forall d s', s = d :: s' -> P s')) by apply H.
  induction s as [|c s [IH1 IH2]].
  - split; [exact Hnil | discriminate].
  - split.
    + apply Hcons; assumption.
    + intros d s' E; injection E as _ <-. exact IH1.
Qed.

(** The encoder returns exactly on the strings without unpaired surrogate. *)
Lemma encode_defined (s : jsstring) :
  well_formed s = true -> exists r, encodeURIComponent s = Ok r.
Proof.
  induction s as [|c rest IH1 IH2] using two_step_ind; intros W.
  - now exists [].
  - cbn [encodeURIComponent well_formed] in *.
    destruct (unescaped c) eqn:U.
    + assert (W' : well_formed rest = true).
      { destruct (is_trail c) eqn:T.
        - exfalso. revert U T. unfold unescaped, is_mark, is_trail.
          cbn [existsb]. range_cases;
            repeat match goal with
                   | |- context [N.eqb ?a ?b] => destruct (N.eqb_spec a b); try lia
                   end; simpl; congruence.
        - destruct (is_lead c) eqn:L; [|exact W].
          exfalso. revert U L. unfold unescaped, is_mark, is_lead.
          cbn [existsb]. range_cases;
            repeat match goal with
                   | |- context [N.eqb ?a ?b] => destruct (N.eqb_spec a b); try lia
                   end; simpl; congruence. }
      destruct (IH1 W') as [r ->]. now eexists.
    + destruct (is_trail c); [discriminate|].
      destruct (is_lead c).
      * destruct rest as [|d rest']; [discriminate|].
        apply andb_true_iff in W as [-> W'].
        destruct (IH2 d rest' eq_refl W') as [r ->]. now eexists.
      * destruct (IH1 W) as [r ->]. now eexists.
Qed.

Lemma encode_throws (s : jsstring) (e : error) :
  encodeURIComponent s = Throw e -> e = URIError /\ well_formed s = false.
Proof.
  induction s as [|c rest IH1 IH2] using two_step_ind; intros H.
  - discriminate.
  - destruct (well_formed (c :: rest)) eqn:W.
    + destruct (encode_defined _ W) as [r Hr]. congruence.
    + split; [|reflexivity].
      cbn [encodeURIComponent] in H.
      destruct (unescaped c).
      { destruct (encodeURIComponent rest) eqn:E; [discriminate|].
        cbn in H. injection H as <-. now apply IH1. }
      destruct (is_trail c); [congruence|].
      destruct (is_lead c).
      * destruct rest as [|d rest']; [congruence|].
        destruct (is_trail d); [|congruence].
        destruct (encodeURIComponent rest') eqn:E; [discriminate|].
        cbn in H. injection H as <-. now apply (IH2 d rest' eq_refl).
      * destruct (encodeURIComponent rest) eqn:E; [discriminate|].
        cbn in H. injection H as <-. now apply IH1.
Qed.

(** An encoded string holds only unescaped characters, [%] and hex digits. *)
Lemma encode_safe (s r : jsstring) :
  encodeURIComponent s = Ok r -> forallb uri_safe r = true.
Proof.
  revert r. induction s as [|c rest IH1 IH2] using two_step_ind; intros r H.
  - injection H as <-. reflexivity.
  - cbn [encodeURIComponent] in H.
    destruct (unescaped c) eqn:U.
    { destruct (encodeURIComponent rest) eqn:E; [|discriminate].
      cbn in H. injection H as <-. cbn [forallb].
      unfold uri_safe at 1. rewrite U. cbn. now apply IH1. }
    destruct (is_trail c); [discriminate|].
    destruct (is_lead c).
    + destruct rest as [|d rest']; [discriminate|].
      destruct (is_trail d); [|discriminate].
      destruct (encodeURIComponent rest') eqn:E; [|discriminate].
      cbn in H. injection H as <-.
      rewrite forallb_app, escape_code_point_safe.
      now apply (IH2 d rest' eq_refl).
    + destruct (encodeURIComponent rest) eqn:E; [|discriminate].
      cbn in H. injection H as <-.
      rewrite forallb_app, escape_code_point_safe. now apply IH1.
Qed.

(** Unescaped text is copied as it is. *)
Lemma encode_unescaped (s : jsstring) :
  forallb unescaped s = true -> encodeURIComponent s = Ok s.
Proof.
  induction s as [|c s IH]; [reflexivity|].
  cbn [forallb encodeURIComponent]. intros H.
  apply andb_true_iff in H as [-> Hs]. now rewrite (IH Hs).
Qed.

End URIFacts.

(* ===================================================================== *)
(** ** The payload templates *)
(* ===================================================================== *)

Lemma split_lines_single (x : jsstring) :
  no_line_feed x = true -> split_lines x = [x].
Proof.
  induction x as [|c x IH]; simpl; [reflexivity|].
  intros H; apply andb_true_iff in H as [Hc Hx].
  apply negb_true_iff in Hc. rewrite Hc, (IH Hx). reflexivity.
Qed.

Lemma split_lines_app (x rest : jsstring) :
  no_line_feed x = true ->
  split_lines (x +++ nl +++ rest) = x :: split_lines rest.
Proof.
  induction x as [|c x IH]; simpl; [reflexivity|].
  intros H; apply andb_true_iff in H as [Hc Hx].
  apply negb_true_iff in Hc. rewrite Hc.
  unfold nl in IH; simpl in IH. rewrite (IH Hx). reflexivity.
Qed.

Lemma split_join (l : list jsstring) :
  l <> [] -> forallb no_line_feed l = true -> split_lines (join nl l) = l.
Proof.
  induction l as [|x l IH]; [congruence|]. intros _ H.
  cbn [forallb] in H. apply andb_true_iff in H as [Hx Hl].
  destruct l as [|y l].
  - simpl. now apply split_lines_single.
  - change (join nl (x :: y :: l)) with (x +++ nl +++ join nl (y :: l)).
    rewrite split_lines_app by exact Hx.
    rewrite IH; [reflexivity | discriminate | exact Hl].
Qed.

(** C1. For every email record the payload is ["mailto:"], the address as
    typed, ["?subject="], the percent-encoded subject, ["&body="] and the
    percent-encoded body, the encoder being [encodeURIComponent]: it is
    applied to the subject and to the body and to nothing else, what it
    returns holds only unescaped characters, [%] and hexadecimal digits, and
    the derivation throws exactly when the encoder does (an unpaired
    surrogate in one of the two).  The record of the spec's example gives
    [mailto:a@b.com?subject=Hi%20there&body=line1%26line2]; reserved
    characters typed in the address stay as they are. *)
Theorem email_payload_template :
  (forall u t e p s c w,
     formatPayload email u t e p s c w =
       (subject <- URI.encodeURIComponent (e_subject e) ;;
        body <- URI.encodeURIComponent (e_body e) ;;
        Ok (lit "mailto:" +++ e_email e +++ lit "?subject=" +++ subject
            +++ lit "&body=" +++ body)))
  /\ (forall u t e p s c w,
        match formatPayload email u t e p s c w with
        | Ok data =>
            exists subject body,
              URI.encodeURIComponent (e_subject e) = Ok subject
              /\ URI.encodeURIComponent (e_body e) = Ok body
              /\ forallb URI.uri_safe subject = true
              /\ forallb URI.uri_safe body = true
              /\ data = lit "mailto:" +++ e_email e +++ lit "?subject="
                        +++ subject +++ lit "&body=" +++ body
        | Throw err =>
            err = URIError
            /\ URI.well_formed (e_subject e) && URI.well_formed (e_body e) = false
        end)
  /\ (forall u t p s c w,
        formatPayload email u t
          {| e_email := lit "a@b.com"; e_subject := lit "Hi there";
             e_body := lit "line1&line2" |} p s c w
        = Ok (lit "mailto:a@b.com?subject=Hi%20there&body=line1%26line2"))
  /\ (forall u t p s c w,
        formatPayload email u t
          {| e_email := lit "a b@c.d?x=1&y"; e_subject := lit "?=&";
             e_body := [] |} p s c w
        = Ok (lit "mailto:a b@c.d?x=1&y?subject=%3F%3D%26&body=")).
Proof.
  split; [reflexivity|]. split; [|split; reflexivity].
  intros u t e p s c w. cbn [formatPayload].
  destruct (URI.encodeURIComponent (e_subject e)) as [subject|err] eqn:Es.
  - destruct (URI.encodeURIComponent (e_body e)) as [body|err] eqn:Eb.
    + cbn. exists subject, body.
      repeat split; eauto using URIFacts.encode_safe.
    + cbn. destruct (URIFacts.encode_throws _ _ Eb) as [-> W].
      split; [reflexivity|]. rewrite W. apply andb_false_r.
  - cbn. destruct (URIFacts.encode_throws _ _ Es) as [-> W].
    split; [reflexivity|]. now rewrite W.
Qed.

(** C2 (as the code has it). For every contact record the payload is the
    nine lines [BEGIN:VCARD], [VERSION:3.0], [FN:<first> <last>],
    [ORG:<org>], [TITLE:<title>], [EMAIL:<email>], [TEL:<phone>],
    [TEL;TYPE=CELL:<mobile>], [END:VCARD] in this order, joined by eight
    line feeds, every field copied as typed (an empty field gives an empty
    string); when no field holds a line feed, cutting the payload at its
    line feeds gives back exactly these nine lines. *)
Theorem contact_payload_nine_lines :
  forall u t e p s c w,
    formatPayload contact u t e p s c w = Ok (join nl (vcard_lines c))
    /\ List.length (vcard_lines c) = 9%nat
    /\ (forallb no_line_feed
          [firstName c; lastName c; organization c; title c; c_email c;
           c_phone c; mobile c] = true ->
        split_lines (join nl (vcard_lines c)) = vcard_lines c).
Proof.
  intros u t e p s c w. split; [|split; [reflexivity|]].
  - cbn [formatPayload vcard_lines join].
    repeat rewrite <- app_assoc. reflexivity.
  - intros H. apply split_join; [discriminate|].
    cbn [forallb] in H.
    repeat (apply andb_true_iff in H; destruct H as [?H H]).
    unfold vcard_lines. cbn [forallb].
    unfold no_line_feed in *. rewrite !forallb_app.
    repeat match goal with
           | Hx : forallb _ _ = true |- _ => rewrite Hx; clear Hx
           end.
    reflexivity.
Qed.

Lemma contact_payload_nine_lines_witness :
  formatPayload contact [] [] (emailData initialForm) [] (smsData initialForm)
    jane (wifiData initialForm)
  = Ok (join nl [lit "BEGIN:VCARD"; lit "VERSION:3.0"; lit "FN:Jane Doe";
                 lit "ORG:Acme"; lit "TITLE:Eng"; lit "EMAIL:j@acme.com";
                 lit "TEL:111"; lit "TEL;TYPE=CELL:222"; lit "END:VCARD"])
  /\ List.length (vcard_lines jane) = 9%nat
  /\ split_lines (join nl (vcard_lines jane)) = vcard_lines jane.
Proof.
  destruct (contact_payload_nine_lines [] [] (emailData initialForm) []
              (smsData initialForm) jane (wifiData initialForm))
    as [H1 [H2 H3]].
  split; [exact H1|]. split; [exact H2|]. apply H3. reflexivity.
Defined.

(** The block of the spec's example has nine lines, not eight. *)
Lemma contact_block_is_not_eight_lines :
  exists data,
    formatPayload contact [] [] (emailData initialForm) [] (smsData initialForm)
      jane (wifiData initialForm) = Ok data
    /\ List.length (split_lines data) = 9%nat
    /\ List.length (split_lines data) <> 8%nat.
Proof.
  eexists. split; [reflexivity|]. split; [reflexivity|]. vm_compute. discriminate.
Qed.

(** C3. For every wifi record the payload is ["WIFI:T:"], the security
    type, [";S:"], the ssid, [";P:"], the password, [";H:"], [true] or
    [false], [";"], ssid, password and security copied as typed; a [;] typed
    in a field is not escaped.  The record of the spec's example gives
    [WIFI:T:WPA;S:Net;P:pw;H:true;]. *)
Theorem wifi_payload_template :
  (forall u t e p s c w,
     formatPayload wifi u t e p s c w =
       Ok (lit "WIFI:T:" +++ security w +++ lit ";S:" +++ ssid w
           +++ lit ";P:" +++ password w +++ lit ";H:"
           +++ (if hidden w then lit "true" else lit "false") +++ lit ";"))
  /\ (forall u t e p s c,
        formatPayload wifi u t e p s c
          {| ssid := lit "Net"; password := lit "pw"; security := lit "WPA";
             hidden := true |}
        = Ok (lit "WIFI:T:WPA;S:Net;P:pw;H:true;"))
  /\ (forall u t e p s c,
        formatPayload wifi u t e p s c
          {| ssid := lit "a;b"; password := lit "p:q"; security := lit "WPA";
             hidden := false |}
        = Ok (lit "WIFI:T:WPA;S:a;b;P:p:q;H:false;")).
Proof. repeat split. Qed.

(** C4. On the url tab an empty field gives [https://example.com] and a
    non-empty one gives the field as typed; on the text tab an empty field
    gives [Sample text] and a non-empty one the field as typed. *)
Theorem url_text_payload :
  forall u t e p s c w,
    (u = [] -> formatPayload url u t e p s c w = Ok (lit "https://example.com"))
    /\ (u <> [] -> formatPayload url u t e p s c w = Ok u)
    /\ (t = [] -> formatPayload text u t e p s c w = Ok (lit "Sample text"))
    /\ (t <> [] -> formatPayload text u t e p s c w = Ok t).
Proof.
  intros u t e p s c w. cbn [formatPayload]. unfold or_else.
  repeat split; intros H; subst; try reflexivity.
  - destruct u; [congruence | reflexivity].
  - destruct t; [congruence | reflexivity].
Qed.

Lemma url_text_payload_witness :
  formatPayload url [] (lit "hello") (emailData initialForm) []
    (smsData initialForm) (contactData initialForm) (wifiData initialForm)
  = Ok (lit "https://example.com")
  /\ formatPayload text [] (lit "hello") (emailData initialForm) []
       (smsData initialForm) (contactData initialForm) (wifiData initialForm)
     = Ok (lit "hello")
  /\ formatPayload url (lit "http://a.b/c?d=e f") [] (emailData initialForm) []
       (smsData initialForm) (contactData initialForm) (wifiData initialForm)
     = Ok (lit "http://a.b/c?d=e f")
  /\ formatPayload text (lit "x") [] (emailData initialForm) []
       (smsData initialForm) (contactData initialForm) (wifiData initialForm)
     = Ok (lit "Sample text").
Proof.
  pose proof (url_text_payload [] (lit "hello") (emailData initialForm) []
                (smsData initialForm) (contactData initialForm)
                (wifiData initialForm)) as [H1 [_ [_ H4]]].
  pose proof (url_text_payload (lit "http://a.b/c?d=e f") []
                (emailData initialForm) [] (smsData initialForm)
                (contactData initialForm) (wifiData initialForm))
    as [_ [H2 [_ _]]].
  pose proof (url_text_payload (lit "x") [] (emailData initialForm) []
                (smsData initialForm) (contactData initialForm)
                (wifiData initialForm)) as [_ [_ [H3 _]]].
  split; [apply H1; reflexivity|].
  split; [apply H4; discriminate|].
  split; [apply H2; discriminate|].
  apply H3; reflexivity.
Defined.

(* ===================================================================== *)
(** ** The payload is never empty *)
(* ===================================================================== *)

Lemma formatPayload_truthy k u t e p s c w data :
  formatPayload k u t e p s c w = Ok data -> truthy data = true.
Proof.
  destruct k; cbn [formatPayload]; intros H.
  - injection H as <-. unfold or_else. destruct (truthy u) eqn:E; [exact E | reflexivity].
  - injection H as <-. unfold or_else. destruct (truthy t) eqn:E; [exact E | reflexivity].
  - destruct (URI.encodeURIComponent (e_subject e)); [|discriminate].
    destruct (URI.encodeURIComponent (e_body e)); [|discriminate].
    injection H as <-. reflexivity.
  - injection H as <-. reflexivity.
  - destruct (URI.encodeURIComponent (s_message s)); [|discriminate].
    injection H as <-. reflexivity.
  - injection H as <-. reflexivity.
  - injection H as <-. reflexivity.
Qed.

Lemma formatPayload_throws k u t e p s c w err :
  formatPayload k u t e p s c w = Throw err ->
  err = URIError /\ (k = email \/ k = sms).
Proof.
  destruct k; cbn [formatPayload]; intros H; try discriminate.
  - split; [|now left].
    destruct (URI.encodeURIComponent (e_subject e)) eqn:Es.
    + destruct (URI.encodeURIComponent (e_body e)) eqn:Eb; [discriminate|].
      cbn in H. injection H as <-. apply (URIFacts.encode_throws _ _ Eb).
    + cbn in H. injection H as <-. apply (URIFacts.encode_throws _ _ Es).
  - split; [|now right].
    destruct (URI.encodeURIComponent (s_message s)) eqn:Em; [discriminate|].
    cbn in H. injection H as <-. apply (URIFacts.encode_throws _ _ Em).
Qed.

(* ===================================================================== *)
(** ** Frame and step lemmas for the event loop *)
(* ===================================================================== *)

Lemma applyInput_qrData i f : qrData (applyInput i f) = qrData f.
Proof. destruct i; reflexivity. Qed.

Lemma applyInput_qrCode i f : qrCode (applyInput i f) = qrCode f.
Proof. destruct i; reflexivity. Qed.

(** The effects of one re-derivation, spelled out. *)
Lemma recompute_changed (a : App) (data : jsstring) :
  payloadOf (form a) = Ok data ->
  data <> qrData (form a) ->
  recompute a =
    {| form := setQrData data (form a);
       inflight := inflight a ++ [(fresh a, encodeOptions data)];
       fresh := S (fresh a); outbox := outbox a; uncaught := uncaught a;
       unmounted := unmounted a |}.
Proof.
  intros Hp Hd. unfold recompute, payloadEffect, Act.bind, Act.lift, Act.setState.
  rewrite Hp. unfold rerender. cbn [form with_form setQrData qrData].
  assert (E : eqb (qrData (form a)) data = false)
    by (apply eqb_neq; congruence).
  rewrite E. unfold encodeEffect.
  change (qrData (setQrData data (form a))) with data.
  rewrite (formatPayload_truthy _ _ _ _ _ _ _ _ _ Hp). reflexivity.
Qed.

Lemma recompute_same (a : App) :
  payloadOf (form a) = Ok (qrData (form a)) ->
  recompute a = with_form (setQrData (qrData (form a))) a.
Proof.
  intros Hp. unfold recompute, payloadEffect, Act.bind, Act.lift, Act.setState.
  rewrite Hp. unfold rerender. cbn [form with_form setQrData qrData].
  now rewrite eqb_refl.
Qed.

Lemma recompute_throws (a : App) (e : error) :
  payloadOf (form a) = Throw e -> recompute a = crash e a.
Proof.
  intros Hp. unfold recompute, payloadEffect, Act.bind, Act.lift.
  now rewrite Hp.
Qed.

Lemma lookup_remove_other id id' l :
  id <> id' -> lookup id (remove id' l) = lookup id l.
Proof.
  intros Hn. induction l as [|[k r] l IH]; [reflexivity|].
  cbn [remove filter fst lookup].
  destruct (Nat.eqb_spec k id') as [->|Hk]; cbn [negb].
  - destruct (Nat.eqb_spec id' id); [congruence | exact IH].
  - cbn [lookup]. destruct (Nat.eqb k id); [reflexivity | exact IH].
Qed.

Lemma lookup_app_last id r l : lookup id (l ++ [(id, r)]) <> None.
Proof.
  induction l as [|[k r'] l IH]; cbn [app lookup].
  - now rewrite Nat.eqb_refl.
  - destruct (Nat.eqb k id); [discriminate | exact IH].
Qed.

Lemma lookup_app_l id l l' :
  lookup id l <> None -> lookup id (l ++ l') <> None.
Proof.
  induction l as [|[k r'] l IH]; cbn [app lookup]; [congruence|].
  destruct (Nat.eqb k id); [discriminate | exact IH].
Qed.

Lemma settle_fulfilled id img a :
  lookup id (inflight a) <> None ->
  settle id (Fulfilled img) a =
    with_form (setQrCode img) (with_inflight (remove id) a).
Proof.
  intros H. unfold settle. destruct (lookup id (inflight a)); congruence.
Qed.

Lemma settle_rejected id e a :
  lookup id (inflight a) <> None ->
  settle id (Rejected e) a = with_uncaught e (with_inflight (remove id) a).
Proof.
  intros H. unfold settle. destruct (lookup id (inflight a)); congruence.
Qed.

(** No handler calls a state setter. *)
Lemma downloadQR_frame f a : form (snd (downloadQR f a)) = form a.
Proof. unfold downloadQR. destruct (truthy (qrCode f)); reflexivity. Qed.

Lemma copyQR_frame p f a : form (snd (copyQR p f a)) = form a.
Proof.
  unfold copyQR. destruct (truthy (qrCode f)); [|reflexivity].
  unfold Act.try_catch, Act.bind, Act.await.
  destruct (fetch p (qrCode f)) as [r|]; [|reflexivity].
  destruct (blob p r) as [b|]; [|reflexivity]. cbn.
  destruct (clipboard_write p _); reflexivity.
Qed.

Lemma shareQR_frame p f a : form (snd (shareQR p f a)) = form a.
Proof.
  unfold shareQR. destruct (has_share p && truthy (qrCode f)); [|reflexivity].
  unfold Act.try_catch, Act.bind, Act.await.
  destruct (fetch p (qrCode f)) as [r|]; [|reflexivity].
  destruct (blob p r) as [b|]; [|reflexivity]. cbn.
  destruct (share p _); reflexivity.
Qed.

(** No handler lets an error out. *)
Lemma downloadQR_returns f a : fst (downloadQR f a) = Ok tt.
Proof. unfold downloadQR. destruct (truthy (qrCode f)); reflexivity. Qed.

Lemma copyQR_returns p f a : fst (copyQR p f a) = Ok tt.
Proof.
  unfold copyQR. destruct (truthy (qrCode f)); [|reflexivity].
  unfold Act.try_catch, Act.bind, Act.await.
  destruct (fetch p (qrCode f)) as [r|]; [|reflexivity].
  destruct (blob p r) as [b|]; [|reflexivity]. cbn.
  destruct (clipboard_write p _) as [[]|]; reflexivity.
Qed.

Lemma shareQR_returns p f a : fst (shareQR p f a) = Ok tt.
Proof.
  unfold shareQR. destruct (has_share p && truthy (qrCode f)); [|reflexivity].
  unfold Act.try_catch, Act.bind, Act.await.
  destruct (fetch p (qrCode f)) as [r|]; [|reflexivity].
  destruct (blob p r) as [b|]; [|reflexivity]. cbn.
  destruct (share p _) as [[]|]; reflexivity.
Qed.

Lemma click_form h a :
  form (snd (h a)) = form a -> form (click h a) = form a.
Proof. unfold click. destruct (h a) as [[|] a']; cbn; congruence. Qed.

Lemma click_returns h a : fst (h a) = Ok tt -> click h a = snd (h a).
Proof. unfold click. destruct (h a) as [[[]|] a']; cbn; congruence. Qed.

Lemma rerender_form prev a : form (rerender prev a) = form a.
Proof.
  unfold rerender. destruct (eqb _ _); [reflexivity|].
  unfold encodeEffect. destruct (truthy _); reflexivity.
Qed.

(** After mounting the payload cell is never empty again. *)
Lemma step_keeps_payload ev a :
  truthy (qrData (form a)) = true -> truthy (qrData (form (step ev a))) = true.
Proof.
  intros H. unfold step. destruct (unmounted a); [exact H|].
  destruct ev as [i|id o| |p|p].
  - unfold dispatch. destruct (recomputes i (form a)).
    + unfold recompute, payloadEffect, Act.bind, Act.lift, Act.setState.
      cbn [form with_form].
      destruct (payloadOf (applyInput i (form a))) as [data|e] eqn:Hp.
      * rewrite rerender_form. cbn. apply (formatPayload_truthy _ _ _ _ _ _ _ _ _ Hp).
      * cbn. now rewrite applyInput_qrData.
    + cbn. now rewrite applyInput_qrData.
  - unfold settle. destruct (lookup id (inflight a)); [|exact H].
    destruct o; exact H.
  - now rewrite click_form by apply downloadQR_frame.
  - now rewrite click_form by apply copyQR_frame.
  - now rewrite click_form by apply shareQR_frame.
Qed.

Lemma reachable_payload a : reachable a -> truthy (qrData (form a)) = true.
Proof.
  induction 1 as [|ev a _ IH]; [reflexivity | now apply step_keeps_payload].
Qed.

Lemma input_changed (a : App) (i : Input) (data : jsstring) :
  unmounted a = false ->
  recomputes i (form a) = true ->
  payloadOf (applyInput i (form a)) = Ok data ->
  data <> qrData (form a) ->
  step (UserInput i) a =
    {| form := setQrData data (applyInput i (form a));
       inflight := inflight a ++ [(fresh a, encodeOptions data)];
       fresh := S (fresh a); outbox := outbox a; uncaught := uncaught a;
       unmounted := false |}.
Proof.
  intros Hu Hr Hp Hd. unfold step, dispatch. rewrite Hu, Hr.
  rewrite (recompute_changed _ data).
  - cbn. now rewrite Hu.
  - exact Hp.
  - cbn. now rewrite applyInput_qrData.
Qed.

Lemma input_same (a : App) (i : Input) :
  unmounted a = false ->
  recomputes i (form a) = true ->
  payloadOf (applyInput i (form a)) = Ok (qrData (form a)) ->
  step (UserInput i) a =
    with_form (fun f => setQrData (qrData f) (applyInput i f)) a.
Proof.
  intros Hu Hr Hp. unfold step, dispatch. rewrite Hu, Hr.
  rewrite recompute_same; cbn [form with_form];
    rewrite applyInput_qrData; [reflexivity | exact Hp].
Qed.

(* ===================================================================== *)
(** ** The encoder effect *)
(* ===================================================================== *)

(** C5 (as the code has it). Encode results are applied in completion
    order: when the payload changes to P1 and then to P2 before either
    encode resolves, both encodes are in flight, and when P2's resolves
    first and P1's afterwards the image shown is first P2's result and in
    the end P1's, while the payload stays P2. *)
Theorem encode_results_apply_in_completion_order :
  forall a i1 i2 P1 P2 img1 img2,
    unmounted a = false ->
    recomputes i1 (form a) = true ->
    payloadOf (applyInput i1 (form a)) = Ok P1 ->
    P1 <> qrData (form a) ->
    recomputes i2 (form (step (UserInput i1) a)) = true ->
    payloadOf (applyInput i2 (form (step (UserInput i1) a))) = Ok P2 ->
    P2 <> P1 ->
    let issued := run [UserInput i1; UserInput i2] a in
    let first := step (EncodeSettled (S (fresh a)) (Fulfilled img2)) issued in
    let second := step (EncodeSettled (fresh a) (Fulfilled img1)) first in
    inflight issued =
      inflight a ++ [(fresh a, encodeOptions P1); (S (fresh a), encodeOptions P2)]
    /\ qrData (form issued) = P2
    /\ qrCode (form first) = img2
    /\ qrData (form second) = P2
    /\ qrCode (form second) = img1.
Proof.
  intros a i1 i2 P1 P2 img1 img2 Hu H1r H1p H1d H2r H2p H2d.
  cbn [run fold_left].
  pose proof (input_changed a i1 P1 Hu H1r H1p H1d) as E1.
  remember (step (UserInput i1) a) as a1 eqn:Ea1.
  assert (Hu1 : unmounted a1 = false) by now rewrite E1.
  assert (Hq1 : qrData (form a1) = P1) by now rewrite E1.
  assert (H2d' : P2 <> qrData (form a1)) by congruence.
  pose proof (input_changed a1 i2 P2 Hu1 H2r H2p H2d') as E2.
  remember (step (UserInput i2) a1) as a2 eqn:Ea2.
  assert (Hin : inflight a2 =
                inflight a ++ [(fresh a, encodeOptions P1);
                               (S (fresh a), encodeOptions P2)]).
  { rewrite E2, E1. cbn. now rewrite <- app_assoc. }
  assert (Hu2 : unmounted a2 = false) by now rewrite E2.
  assert (L2 : lookup (S (fresh a)) (inflight a2) <> None).
  { rewrite Hin.
    change [(fresh a, encodeOptions P1); (S (fresh a), encodeOptions P2)]
      with ([(fresh a, encodeOptions P1)] ++ [(S (fresh a), encodeOptions P2)]).
    rewrite app_assoc. apply lookup_app_last. }
  assert (L1 : lookup (fresh a) (inflight a2) <> None).
  { rewrite Hin.
    change [(fresh a, encodeOptions P1); (S (fresh a), encodeOptions P2)]
      with ([(fresh a, encodeOptions P1)] ++ [(S (fresh a), encodeOptions P2)]).
    rewrite app_assoc. apply lookup_app_l, lookup_app_last. }
  assert (S1 : step (EncodeSettled (S (fresh a)) (Fulfilled img2)) a2 =
               with_form (setQrCode img2)
                 (with_inflight (remove (S (fresh a))) a2)).
  { unfold step. rewrite Hu2. now apply settle_fulfilled. }
  rewrite S1.
  assert (S2 : step (EncodeSettled (fresh a) (Fulfilled img1))
                 (with_form (setQrCode img2)
                    (with_inflight (remove (S (fresh a))) a2)) =
               with_form (setQrCode img1)
                 (with_inflight (remove (fresh a))
                    (with_form (setQrCode img2)
                       (with_inflight (remove (S (fresh a))) a2)))).
  { unfold step. cbn [unmounted with_form with_inflight]. rewrite Hu2.
    apply settle_fulfilled. cbn [inflight with_form with_inflight].
    rewrite lookup_remove_other by lia. exact L1. }
  rewrite S2. repeat split; try exact Hin; rewrite E2; reflexivity.
Qed.

Lemma encode_results_apply_in_completion_order_witness :
  let issued := run [UserInput typed_a; UserInput typed_ab] mount in
  let first := step (EncodeSettled 2 (Fulfilled (lit "data:ab"))) issued in
  let second := step (EncodeSettled 1 (Fulfilled (lit "data:a"))) first in
  inflight issued =
    inflight mount ++ [(1%nat, encodeOptions (lit "a"));
                       (2%nat, encodeOptions (lit "ab"))]
  /\ qrData (form issued) = lit "ab"
  /\ qrCode (form first) = lit "data:ab"
  /\ qrData (form second) = lit "ab"
  /\ qrCode (form second) = lit "data:a".
Proof.
  apply (encode_results_apply_in_completion_order mount typed_a typed_ab
           (lit "a") (lit "ab") (lit "data:a") (lit "data:ab"));
    try reflexivity; vm_compute; discriminate.
Defined.

(** A stale result overwrites a newer one: the url field is typed to [a]
    and then to [ab]; the encode of [ab] resolves, then the encode of [a];
    the payload is [ab] and the image shown is the one of [a]. *)
Lemma stale_encode_result_overwrites :
  let final :=
    run [UserInput typed_a; UserInput typed_ab;
         EncodeSettled 2 (Fulfilled (lit "data:ab"));
         EncodeSettled 1 (Fulfilled (lit "data:a"))] mount in
  lookup 1 (inflight (run [UserInput typed_a; UserInput typed_ab] mount))
    = Some (encodeOptions (lit "a"))
  /\ lookup 2 (inflight (run [UserInput typed_a; UserInput typed_ab] mount))
     = Some (encodeOptions (lit "ab"))
  /\ qrData (form final) = lit "ab"
  /\ qrCode (form final) = lit "data:a"
  /\ qrCode (form final) <> lit "data:ab".
Proof. vm_compute. repeat split; discriminate. Qed.

(** C6 (what the code does). The encode of the first payload is rejected:
    the image cell keeps its value and the other cells too, no notice is
    emitted, and the rejection reaches no handler. *)
Theorem encode_rejection_is_unhandled :
  let err := DOMException (lit "too long") in
  let a := step (EncodeSettled 0 (Rejected err)) mount in
  lookup 0 (inflight mount) = Some (encodeOptions (lit "https://example.com"))
  /\ form a = form mount
  /\ outbox a = []
  /\ uncaught a = [err]
  /\ unmounted a = false.
Proof. vm_compute. repeat split. Qed.

(** In any state a rejected encode leaves the form and the outbox alone
    and adds the reason to the unhandled ones. *)
Lemma encode_rejection_general a id e :
  unmounted a = false ->
  lookup id (inflight a) <> None ->
  form (step (EncodeSettled id (Rejected e)) a) = form a
  /\ outbox (step (EncodeSettled id (Rejected e)) a) = outbox a
  /\ uncaught (step (EncodeSettled id (Rejected e)) a) = uncaught a ++ [e].
Proof.
  intros Hu Hl. unfold step. rewrite Hu, settle_rejected by exact Hl.
  repeat split.
Qed.

(* ===================================================================== *)
(** ** The action handlers *)
(* ===================================================================== *)

Lemma notices_app l l' : notices (l ++ l') = notices l ++ notices l'.
Proof.
  induction l as [|[] l IH]; cbn [app notices]; try exact IH.
  - reflexivity.
  - now rewrite IH.
Qed.

(** C7. When no image exists yet ([qrCode] is the empty string), each of
    the three handlers returns without throwing and leaves the whole
    instance as it was: every cell of the form, and nothing saved, no
    notice and no error recorded. *)
Theorem handlers_without_image :
  forall (p : Platform) (a : App),
    qrCode (form a) = [] ->
    downloadQR (form a) a = (Ok tt, a)
    /\ copyQR p (form a) a = (Ok tt, a)
    /\ shareQR p (form a) a = (Ok tt, a)
    /\ step ClickDownload a = a
    /\ step (ClickCopy p) a = a
    /\ step (ClickShare p) a = a.
Proof.
  intros p a H.
  assert (D : downloadQR (form a) a = (Ok tt, a))
    by (unfold downloadQR; now rewrite H).
  assert (C : copyQR p (form a) a = (Ok tt, a))
    by (unfold copyQR; now rewrite H).
  assert (S : shareQR p (form a) a = (Ok tt, a))
    by (unfold shareQR; rewrite H; now rewrite andb_false_r).
  repeat split; try assumption;
    unfold step, click; rewrite ?D, ?C, ?S; now destruct (unmounted a).
Qed.

Lemma handlers_without_image_witness :
  downloadQR (form mount) mount = (Ok tt, mount)
  /\ copyQR goodPlatform (form mount) mount = (Ok tt, mount)
  /\ shareQR goodPlatform (form mount) mount = (Ok tt, mount)
  /\ step ClickDownload mount = mount
  /\ step (ClickCopy goodPlatform) mount = mount
  /\ step (ClickShare goodPlatform) mount = mount.
Proof. apply (handlers_without_image goodPlatform mount). reflexivity. Defined.

(** C8. Whatever the browser answers, a run of the download, copy or share
    handler leaves every cell of the form as it was (tab, records, payload,
    image), starts no encode, and so does a click on its button. *)
Theorem handlers_keep_form :
  forall (p : Platform) (f : FormState) (a : App),
    form (snd (downloadQR f a)) = form a
    /\ form (snd (copyQR p f a)) = form a
    /\ form (snd (shareQR p f a)) = form a
    /\ form (step ClickDownload a) = form a
    /\ form (step (ClickCopy p) a) = form a
    /\ form (step (ClickShare p) a) = form a
    /\ inflight (step ClickDownload a) = inflight a
    /\ inflight (step (ClickCopy p) a) = inflight a
    /\ inflight (step (ClickShare p) a) = inflight a.
Proof.
  intros p f a.
  split; [apply downloadQR_frame|]. split; [apply copyQR_frame|].
  split; [apply shareQR_frame|].
  unfold step. destruct (unmounted a); [repeat split|].
  split; [apply click_form, downloadQR_frame|].
  split; [apply click_form, copyQR_frame|].
  split; [apply click_form, shareQR_frame|].
  rewrite !click_returns
    by (apply downloadQR_returns || apply copyQR_returns || apply shareQR_returns).
  split; [|split].
  - unfold downloadQR. destruct (truthy (qrCode (form a))); reflexivity.
  - unfold copyQR. destruct (truthy (qrCode (form a))); [|reflexivity].
    unfold Act.try_catch, Act.bind, Act.await.
    destruct (fetch p _) as [r|]; [|reflexivity].
    destruct (blob p r) as [b|]; [|reflexivity]. cbn.
    destruct (clipboard_write p _); reflexivity.
  - unfold shareQR. destruct (has_share p && truthy (qrCode (form a))); [|reflexivity].
    unfold Act.try_catch, Act.bind, Act.await.
    destruct (fetch p _) as [r|]; [|reflexivity].
    destruct (blob p r) as [b|]; [|reflexivity]. cbn.
    destruct (share p _); reflexivity.
Qed.

(** C9. The copy and the share handler never throw, and a click on their
    buttons records no unhandled error; when an image exists and the copy
    (resp. the share, on a browser that has it) is rejected, the handler
    emits exactly one notice, [Copy Failed] (resp. [Share Failed]); when
    [navigator.share] is missing the share handler does nothing at all. *)
Theorem copy_share_failures_are_notices :
  forall (p : Platform) (f : FormState) (a : App),
    (fst (copyQR p f a) = Ok tt /\ fst (shareQR p f a) = Ok tt)
    /\ (uncaught (step (ClickCopy p) a) = uncaught a
        /\ uncaught (step (ClickShare p) a) = uncaught a)
    /\ (truthy (qrCode f) = true -> copy_fails p f = true ->
        notices (outbox (snd (copyQR p f a)))
        = notices (outbox a) ++ [copyFailedToast])
    /\ (truthy (qrCode f) = true -> has_share p = true ->
        share_fails p f = true ->
        notices (outbox (snd (shareQR p f a)))
        = notices (outbox a) ++ [shareFailedToast])
    /\ (has_share p = false -> shareQR p f a = (Ok tt, a)).
Proof.
  intros p f a.
  split; [split; [apply copyQR_returns | apply shareQR_returns]|].
  split.
  { unfold step. destruct (unmounted a); [split; reflexivity|].
    rewrite !click_returns by (apply copyQR_returns || apply shareQR_returns).
    split.
    - unfold copyQR. destruct (truthy (qrCode (form a))); [|reflexivity].
      unfold Act.try_catch, Act.bind, Act.await.
      destruct (fetch p _) as [r|]; [|reflexivity].
      destruct (blob p r) as [b|]; [|reflexivity]. cbn.
      destruct (clipboard_write p _); reflexivity.
    - unfold shareQR.
      destruct (has_share p && truthy (qrCode (form a))); [|reflexivity].
      unfold Act.try_catch, Act.bind, Act.await.
      destruct (fetch p _) as [r|]; [|reflexivity].
      destruct (blob p r) as [b|]; [|reflexivity]. cbn.
      destruct (share p _); reflexivity. }
  split; [|split].
  - intros Hq Hf. unfold copyQR, copy_fails in *. rewrite Hq.
    unfold Act.try_catch, Act.bind, Act.await, Act.toast, Act.emit.
    destruct (fetch p (qrCode f)) as [r|];
      [|cbn; now rewrite notices_app].
    destruct (blob p r) as [b|]; [|cbn; now rewrite notices_app].
    cbn. destruct (clipboard_write p _); [discriminate|].
    cbn. rewrite !notices_app. cbn. now rewrite app_nil_r.
  - intros Hq Hs Hf. unfold shareQR, share_fails in *. rewrite Hq, Hs.
    cbn [andb].
    unfold Act.try_catch, Act.bind, Act.await, Act.toast, Act.emit.
    destruct (fetch p (qrCode f)) as [r|];
      [|cbn; now rewrite notices_app].
    destruct (blob p r) as [b|]; [|cbn; now rewrite notices_app].
    cbn. destruct (share p _); [discriminate|].
    cbn. rewrite !notices_app. cbn. now rewrite app_nil_r.
  - intros Hs. unfold shareQR. now rewrite Hs.
Qed.

Lemma copy_share_failures_are_notices_witness :
  notices (outbox (snd (copyQR deniedPlatform (form shown) shown)))
    = notices (outbox shown) ++ [copyFailedToast]
  /\ notices (outbox (snd (shareQR deniedPlatform (form shown) shown)))
     = notices (outbox shown) ++ [shareFailedToast]
  /\ shareQR noSharePlatform (form shown) shown = (Ok tt, shown).
Proof.
  pose proof (copy_share_failures_are_notices deniedPlatform (form shown) shown)
    as [_ [_ [Hc [Hs _]]]].
  pose proof (copy_share_failures_are_notices noSharePlatform (form shown) shown)
    as [_ [_ [_ [_ Hn]]]].
  split; [apply Hc; reflexivity|].
  split; [apply Hs; reflexivity|].
  apply Hn; reflexivity.
Defined.

(* ===================================================================== *)
(** ** The guard of the encoder effect *)
(* ===================================================================== *)

(** C10 (as the code has it). The derivation never yields the empty
    string: whenever it returns, the payload is non-empty (it can only
    throw [URIError], on the email and sms tabs).  The guard of the encoder
    effect skips the encode once, on the first render, where the payload
    cell still holds its initial empty string; mounting then starts the
    encode of the placeholder, and in every state reached afterwards the
    cell is non-empty, so the guard lets the encode through.  A
    re-derivation that changes the payload starts exactly one encode, of
    the new payload; one that gives the payload already stored starts
    none. *)
Theorem payload_nonempty_and_encode_on_change :
  (forall k u t e p s c w,
     match formatPayload k u t e p s c w with
     | Ok data => data <> []
     | Throw err => err = URIError /\ (k = email \/ k = sms)
     end)
  /\ encodeEffect initialForm initialApp = (Ok tt, initialApp)
  /\ inflight mount = [(0%nat, encodeOptions (lit "https://example.com"))]
  /\ (forall a, reachable a ->
        qrData (form a) <> []
        /\ encodeEffect (form a) a =
             Act.toDataURL_then_setQrCode (encodeOptions (qrData (form a))) a)
  /\ (forall a i data,
        unmounted a = false ->
        recomputes i (form a) = true ->
        payloadOf (applyInput i (form a)) = Ok data ->
        (data <> qrData (form a) ->
         inflight (step (UserInput i) a) = inflight a ++ [(fresh a, encodeOptions data)]
         /\ fresh (step (UserInput i) a) = S (fresh a))
        /\ (data = qrData (form a) ->
            inflight (step (UserInput i) a) = inflight a
            /\ fresh (step (UserInput i) a) = fresh a)).
Proof.
  split.
  { intros k u t e p s c w.
    destruct (formatPayload k u t e p s c w) as [data|err] eqn:E.
    - apply truthy_nonempty, (formatPayload_truthy _ _ _ _ _ _ _ _ _ E).
    - apply (formatPayload_throws _ _ _ _ _ _ _ _ _ E). }
  split; [reflexivity|]. split; [reflexivity|]. split.
  { intros a R. pose proof (reachable_payload a R) as T.
    split; [now apply truthy_nonempty|].
    unfold encodeEffect. now rewrite T. }
  intros a i data Hu Hr Hp. split.
  - intros Hd. rewrite (input_changed a i data Hu Hr Hp Hd). split; reflexivity.
  - intros ->. rewrite (input_same a i Hu Hr Hp). split; reflexivity.
Qed.

Lemma payload_nonempty_and_encode_on_change_witness :
  (qrData (form shown) <> []
   /\ encodeEffect (form shown) shown =
        Act.toDataURL_then_setQrCode (encodeOptions (qrData (form shown))) shown)
  /\ (inflight (step (UserInput typed_a) shown)
        = inflight shown ++ [(fresh shown, encodeOptions (lit "a"))]
      /\ fresh (step (UserInput typed_a) shown) = S (fresh shown))
  /\ (inflight (step (UserInput pasted_placeholder) shown) = inflight shown
      /\ fresh (step (UserInput pasted_placeholder) shown) = fresh shown).
Proof.
  destruct payload_nonempty_and_encode_on_change as [_ [_ [_ [G C]]]].
  split; [apply G; unfold shown; apply reach_step, reach_mount|].
  split.
  - apply (C shown typed_a (lit "a")); try reflexivity. vm_compute; discriminate.
  - apply (C shown pasted_placeholder (lit "https://example.com")); reflexivity.
Defined.

(** Two ways in which a re-derivation starts no encode: the derivation
    throws on a subject that is half a surrogate pair, and pasting the
    placeholder into the empty url field re-derives the payload already
    stored. *)
Lemma recomputation_without_encode :
  formatPayload email [] [] half_emoji [] (smsData initialForm)
    (contactData initialForm) (wifiData initialForm) = Throw URIError
  /\ recomputes pasted_placeholder (form mount) = true
  /\ payloadOf (applyInput pasted_placeholder (form mount))
     = Ok (lit "https://example.com")
  /\ unmounted mount = false
  /\ inflight (step (UserInput pasted_placeholder) mount) = inflight mount
  /\ fresh (step (UserInput pasted_placeholder) mount) = fresh mount.
Proof. vm_compute. repeat split. Qed.

(* ===================================================================== *)
(** ** More on the payload derivation *)
(* ===================================================================== *)

Module URIMore.
Import URI.

Lemma unescaped_not_surrogate (c : N) :
  unescaped c = true -> is_trail c = false /\ is_lead c = false.
Proof.
  unfold unescaped, is_mark, is_trail, is_lead, is_alpha, is_digit, in_range.
  cbn [existsb]. intros H.
  split.
  - destruct (N.leb_spec 0xDC00 c) as [Hc|]; [|reflexivity].
    exfalso. revert H.
    repeat match goal with
           | |- context [?a <=? ?b] => destruct (N.leb_spec a b); try lia
           | |- context [N.eqb ?a ?b] => destruct (N.eqb_spec a b); try lia
           end; cbn; congruence.
  - destruct (N.leb_spec 0xD800 c) as [Hc|]; [|reflexivity].
    exfalso. revert H.
    repeat match goal with
           | |- context [?a <=? ?b] => destruct (N.leb_spec a b); try lia
           | |- context [N.eqb ?a ?b] => destruct (N.eqb_spec a b); try lia
           end; cbn; congruence.
Qed.

(** What the encoder returns on, it returns on well-formed text only. *)
Lemma encode_ok_well_formed (s r : jsstring) :
  encodeURIComponent s = Ok r -> well_formed s = true.
Proof.
  revert r. induction s as [|c rest IH1 IH2] using URIFacts.two_step_ind;
    intros r H; [reflexivity|].
  cbn [encodeURIComponent well_formed] in *.
  destruct (unescaped c) eqn:U.
  { destruct (unescaped_not_surrogate c U) as [-> ->].
    destruct (encodeURIComponent rest) eqn:E; [|discriminate]. eauto. }
  destruct (is_trail c); [discriminate|].
  destruct (is_lead c).
  - destruct rest as [|d rest']; [discriminate|].
    destruct (is_trail d); [|discriminate].
    destruct (encodeURIComponent rest') eqn:E; [|discriminate].
    cbn [andb]. exact (IH2 d rest' eq_refl _ E).
  - destruct (encodeURIComponent rest) eqn:E; [|discriminate]. eauto.
Qed.

Lemma escape_octet_length (o : N) : List.length (escape_octet o) = 3%nat.
Proof. reflexivity. Qed.

Lemma utf8_length (cp : N) :
  (1 <= List.length (utf8 cp) <= 4)%nat.
Proof.
  unfold utf8.
  destruct (cp <? 0x80); [cbn; lia|].
  destruct (cp <? 0x800); [cbn; lia|].
  destruct (cp <? 0x10000); cbn; lia.
Qed.

Lemma flat_map_escape_length (os : list N) :
  List.length (flat_map escape_octet os) = (3 * List.length os)%nat.
Proof.
  induction os as [|o os IH]; [reflexivity|].
  cbn [flat_map]. rewrite length_app, IH, escape_octet_length. cbn [List.length]. lia.
Qed.

Lemma escape_code_point_length (cp : N) :
  (3 <= List.length (escape_code_point cp))%nat.
Proof.
  unfold escape_code_point. rewrite flat_map_escape_length.
  pose proof (utf8_length cp). lia.
Qed.

Lemma escape_pair_length (c d : N) :
  List.length (escape_code_point (pair_code_point c d)) = 12%nat.
Proof.
  unfold escape_code_point. rewrite flat_map_escape_length.
  unfold utf8, pair_code_point.
  repeat match goal with
         | |- context [?a <? ?b] => destruct (N.ltb_spec a b); [lia|]
         end.
  reflexivity.
Qed.

(** Every escaped code point takes at most two units and gives at least
    three: the result is longer than the text by at least the number of
    units that are not copied. *)
Lemma encode_length (s r : jsstring) :
  encodeURIComponent s = Ok r ->
  (List.length s + List.length (filter (fun c => negb (unescaped c)) s)
   <= List.length r)%nat.
Proof.
  revert r. induction s as [|c rest IH1 IH2] using URIFacts.two_step_ind;
    intros r H.
  - injection H as <-. cbn. lia.
  - cbn [encodeURIComponent] in H. cbn [filter].
    destruct (unescaped c) eqn:U.
    { destruct (encodeURIComponent rest) as [r'|] eqn:E; [|discriminate].
      cbn in H. injection H as <-. cbn [negb List.length].
      specialize (IH1 r' eq_refl). lia. }
    cbn [negb].
    destruct (is_trail c); [discriminate|].
    destruct (is_lead c).
    + destruct rest as [|d rest']; [discriminate|].
      destruct (is_trail d); [|discriminate].
      destruct (encodeURIComponent rest') as [r'|] eqn:E; [|discriminate].
      cbn in H. injection H as <-.
      specialize (IH2 d rest' eq_refl r' E).
      rewrite length_app, escape_pair_length.
      cbn [filter List.length].
      destruct (negb (unescaped d)); cbn [List.length]; lia.
    + destruct (encodeURIComponent rest) as [r'|] eqn:E; [|discriminate].
      cbn in H. injection H as <-.
      specialize (IH1 r' eq_refl). rewrite length_app.
      pose proof (escape_code_point_length c).
      cbn [List.length]. lia.
Qed.

Lemma filter_nil_forallb (s : jsstring) :
  filter (fun c => negb (unescaped c)) s = [] -> forallb unescaped s = true.
Proof.
  induction s as [|c s IH]; [reflexivity|]. cbn [filter forallb].
  destruct (unescaped c); cbn [negb]; [exact IH | discriminate].
Qed.

End URIMore.

(** X1. [encodeURIComponent] never shortens a text: the result is longer
    than the text by at least the number of code units that are not
    copied; and it gives a text back unchanged exactly when the text holds
    unescaped characters only (letters, digits and [-_.!~*'()]). *)
Theorem encode_fixed_points :
  forall s r,
    URI.encodeURIComponent s = Ok r ->
    (List.length s <= List.length r)%nat
    /\ (r = s <-> forallb URI.unescaped s = true).
Proof.
  intros s r H. pose proof (URIMore.encode_length s r H) as L.
  split; [lia|]. split.
  - intros ->. apply URIMore.filter_nil_forallb.
    destruct (filter _ s) eqn:F; [reflexivity | cbn in L; lia].
  - intros U. rewrite (URIFacts.encode_unescaped s U) in H. congruence.
Qed.

Lemma encode_fixed_points_witness :
  (List.length (lit "Hi there") <= List.length (lit "Hi%20there"))%nat
  /\ (lit "Hi%20there" = lit "Hi there"
      <-> forallb URI.unescaped (lit "Hi there") = true).
Proof. apply (encode_fixed_points (lit "Hi there") (lit "Hi%20there")). reflexivity. Defined.

(** X2. The sms payload is [sms:], the number as typed, [?body=] and the
    percent-encoded message; the encoded message holds only unescaped
    characters, [%] and hexadecimal digits; the derivation throws
    [URIError] exactly when the message holds an unpaired surrogate. *)
Theorem sms_payload_template :
  forall u t e p s c w,
    match formatPayload sms u t e p s c w with
    | Ok data =>
        URI.well_formed (s_message s) = true
        /\ exists message,
             URI.encodeURIComponent (s_message s) = Ok message
             /\ forallb URI.uri_safe message = true
             /\ data = lit "sms:" +++ s_phone s +++ lit "?body=" +++ message
    | Throw err => err = URIError /\ URI.well_formed (s_message s) = false
    end.
Proof.
  intros u t e p s c w. cbn [formatPayload].
  destruct (URI.encodeURIComponent (s_message s)) as [message|err] eqn:E; cbn.
  - split; [apply (URIMore.encode_ok_well_formed _ _ E)|].
    exists message. repeat split. apply (URIFacts.encode_safe _ _ E).
  - apply (URIFacts.encode_throws _ _ E).
Qed.

Lemma payloadOf_cases :
  forall f,
    match payloadOf f with
    | Ok data => ill_formed_text f = false /\ data <> []
    | Throw err => err = URIError /\ ill_formed_text f = true
    end.
Proof.
  intros f. unfold payloadOf, ill_formed_text.
  destruct (formatPayload _ _ _ _ _ _ _ _) as [data|err] eqn:E.
  - split; [|apply truthy_nonempty, (formatPayload_truthy _ _ _ _ _ _ _ _ _ E)].
    destruct (activeTab f); try reflexivity; cbn [formatPayload] in E.
    + destruct (URI.encodeURIComponent (e_subject _)) eqn:Es; [|discriminate].
      destruct (URI.encodeURIComponent (e_body _)) eqn:Eb; [|discriminate].
      now rewrite (URIMore.encode_ok_well_formed _ _ Es),
                  (URIMore.encode_ok_well_formed _ _ Eb).
    + destruct (URI.encodeURIComponent (s_message _)) eqn:Em; [|discriminate].
      now rewrite (URIMore.encode_ok_well_formed _ _ Em).
  - destruct (activeTab f); cbn [formatPayload] in E; try discriminate.
    + destruct (URI.encodeURIComponent (e_subject _)) eqn:Es.
      * destruct (URI.encodeURIComponent (e_body _)) eqn:Eb; [discriminate|].
        cbn in E. injection E as <-.
        destruct (URIFacts.encode_throws _ _ Eb) as [-> W].
        split; [reflexivity|]. rewrite W. now rewrite andb_false_r.
      * cbn in E. injection E as <-.
        destruct (URIFacts.encode_throws _ _ Es) as [-> W].
        split; [reflexivity|]. now rewrite W.
    + destruct (URI.encodeURIComponent (s_message _)) eqn:Em; [discriminate|].
      cbn in E. injection E as <-.
      destruct (URIFacts.encode_throws _ _ Em) as [-> W].
      split; [reflexivity|]. now rewrite W.
Qed.

(** X3. The derivation throws exactly when the active tab is email or sms
    and one of its percent-encoded fields (subject, body, message) holds an
    unpaired surrogate, and what it throws is [URIError]; otherwise it
    returns a non-empty payload. *)
Theorem derivation_throws_on_unpaired_surrogate :
  forall f,
    match payloadOf f with
    | Ok data => ill_formed_text f = false /\ data <> []
    | Throw err => err = URIError /\ ill_formed_text f = true
    end.
Proof. exact payloadOf_cases. Qed.

Lemma templated_head k u t e p s c w data :
  templated k = true ->
  formatPayload k u t e p s c w = Ok data ->
  exists rest, data = headOf k +++ rest.
Proof.
  destruct k; cbn [templated formatPayload headOf]; intros T H; try discriminate.
  - destruct (URI.encodeURIComponent (e_subject e)); [|discriminate].
    destruct (URI.encodeURIComponent (e_body e)); [|discriminate].
    injection H as <-. eexists. reflexivity.
  - injection H as <-. eexists. reflexivity.
  - destruct (URI.encodeURIComponent (s_message s)); [|discriminate].
    injection H as <-. eexists. reflexivity.
  - injection H as <-. eexists. repeat rewrite <- app_assoc. reflexivity.
  - injection H as <-. eexists. reflexivity.
Qed.

(** X4. On the five template tabs (email, phone, sms, contact, wifi) the
    payload starts with the fixed head of its tab ([mailto:], [tel:],
    [sms:], the first lines of the card, [WIFI:T:]), so two template tabs
    never derive the same payload, whatever their records hold. *)
Theorem template_payloads_tell_the_tab :
  forall k k' u t e p s c w u' t' e' p' s' c' w' data,
    templated k = true ->
    templated k' = true ->
    formatPayload k u t e p s c w = Ok data ->
    formatPayload k' u' t' e' p' s' c' w' = Ok data ->
    k = k' /\ exists rest, data = headOf k +++ rest.
Proof.
  intros k k' u t e p s c w u' t' e' p' s' c' w' data T T' H H'.
  destruct (templated_head _ _ _ _ _ _ _ _ _ T H) as [rest R].
  destruct (templated_head _ _ _ _ _ _ _ _ _ T' H') as [rest' R'].
  split; [|now exists rest].
  rewrite R in R'. clear - T T' R'.
  destruct k, k'; try reflexivity; try discriminate T; try discriminate T';
    discriminate R'.
Qed.

Lemma template_payloads_tell_the_tab_witness :
  phone = phone /\ exists rest, lit "tel:+123" = headOf phone +++ rest.
Proof.
  apply (template_payloads_tell_the_tab phone phone
           [] [] (emailData initialForm) (lit "+123") (smsData initialForm)
           (contactData initialForm) (wifiData initialForm)
           (lit "x") [] (emailData initialForm) (lit "+123") (smsData initialForm)
           jane (wifiData initialForm) (lit "tel:+123")); reflexivity.
Defined.

(* ===================================================================== *)
(** ** Invariants of the event loop *)
(* ===================================================================== *)

Lemma QRType_eqb_eq (a b : QRType) : QRType_eqb a b = true <-> a = b.
Proof. destruct a, b; cbn; split; congruence. Qed.

Lemma payloadOf_setQrData v f : payloadOf (setQrData v f) = payloadOf f.
Proof. reflexivity. Qed.

Lemma payloadOf_setQrCode v f : payloadOf (setQrCode v f) = payloadOf f.
Proof. reflexivity. Qed.

(** An input that changes no dependency leaves the derivation alone. *)
Lemma quiet_input_payload i f :
  recomputes i f = false -> payloadOf (applyInput i f) = payloadOf f.
Proof.
  destruct i; cbn [recomputes]; intros H; try discriminate; try reflexivity;
    apply negb_false_iff in H.
  - apply QRType_eqb_eq in H. subst k. reflexivity.
  - apply eqb_eq in H. subst v. reflexivity.
  - apply eqb_eq in H. subst v. reflexivity.
  - apply eqb_eq in H. subst v. reflexivity.
Qed.

(** A handler changes the outbox and nothing else. *)
Lemma downloadQR_outbox_only f a :
  snd (downloadQR f a) = with_outbox (fun _ => outbox (snd (downloadQR f a))) a.
Proof.
  unfold downloadQR. destruct (truthy (qrCode f)); destruct a; reflexivity.
Qed.

Lemma copyQR_outbox_only p f a :
  snd (copyQR p f a) = with_outbox (fun _ => outbox (snd (copyQR p f a))) a.
Proof.
  unfold copyQR. destruct (truthy (qrCode f)); [|destruct a; reflexivity].
  unfold Act.try_catch, Act.bind, Act.await.
  destruct (fetch p (qrCode f)) as [r|]; [|destruct a; reflexivity].
  destruct (blob p r) as [b|]; [|destruct a; reflexivity]. cbn.
  destruct (clipboard_write p _); destruct a; reflexivity.
Qed.

Lemma shareQR_outbox_only p f a :
  snd (shareQR p f a) = with_outbox (fun _ => outbox (snd (shareQR p f a))) a.
Proof.
  unfold shareQR.
  destruct (has_share p && truthy (qrCode f)); [|destruct a; reflexivity].
  unfold Act.try_catch, Act.bind, Act.await.
  destruct (fetch p (qrCode f)) as [r|]; [|destruct a; reflexivity].
  destruct (blob p r) as [b|]; [|destruct a; reflexivity]. cbn.
  destruct (share p _); destruct a; reflexivity.
Qed.

Lemma click_promises ev h a :
  fst (h a) = Ok tt ->
  snd (h a) = with_outbox (fun _ => outbox (snd (h a))) a ->
  promise_change ev a (click h a).
Proof.
  intros R O. rewrite (click_returns h a R), O. now apply none_started.
Qed.

Lemma step_promises ev a : promise_change ev a (step ev a).
Proof.
  unfold step. destruct (unmounted a) eqn:Hu; [now apply none_started|].
  destruct ev as [i|id o| |p|p].
  - unfold dispatch. destruct (recomputes i (form a)) eqn:Hr;
      [|now apply none_started].
    destruct (payloadOf (applyInput i (form a))) as [data|e] eqn:Hp.
    + destruct (eqb data (qrData (form a))) eqn:Hd.
      * apply eqb_eq in Hd. subst data.
        rewrite recompute_same by (cbn; now rewrite applyInput_qrData).
        now apply none_started.
      * apply eqb_neq in Hd.
        rewrite (recompute_changed _ data)
          by (cbn; rewrite ?applyInput_qrData; assumption).
        apply (one_started _ _ _ i); cbn; try reflexivity; try assumption.
        apply truthy_nonempty, (formatPayload_truthy _ _ _ _ _ _ _ _ _ Hp).
    + rewrite (recompute_throws _ e) by exact Hp. now apply none_started.
  - unfold settle. destruct (lookup id (inflight a)) eqn:Hl;
      [|now apply none_started].
    apply (one_settled _ _ _ id o); try reflexivity; try congruence;
      destruct o; reflexivity.
  - apply click_promises; [apply downloadQR_returns | apply downloadQR_outbox_only].
  - apply click_promises; [apply copyQR_returns | apply copyQR_outbox_only].
  - apply click_promises; [apply shareQR_returns | apply shareQR_outbox_only].
Qed.

Lemma unmounted_stays ev a : unmounted a = true -> step ev a = a.
Proof. intros H. unfold step. now rewrite H. Qed.

Lemma mounted_before ev a : unmounted (step ev a) = false -> unmounted a = false.
Proof.
  destruct (unmounted a) eqn:Hu; [|reflexivity].
  now rewrite (unmounted_stays ev a Hu), Hu.
Qed.

Lemma reachable_payload_consistent :
  forall a,
    reachable a -> unmounted a = false ->
    payloadOf (form a) = Ok (qrData (form a)).
Proof.
  induction 1 as [|ev a R IH]; [reflexivity|]. intros Hu'.
  pose proof (mounted_before ev a Hu') as Hu. specialize (IH Hu).
  revert Hu'. unfold step. rewrite Hu.
  destruct ev as [i|id o| |p|p]; intros Hu'.
  - unfold dispatch in *. destruct (recomputes i (form a)) eqn:Hr.
    + destruct (payloadOf (applyInput i (form a))) as [data|e] eqn:Hp.
      * destruct (eqb data (qrData (form a))) eqn:Hd.
        -- apply eqb_eq in Hd. subst data.
           rewrite recompute_same by (cbn; now rewrite applyInput_qrData).
           cbn. now rewrite applyInput_qrData.
        -- apply eqb_neq in Hd.
           rewrite (recompute_changed _ data)
             by (cbn; rewrite ?applyInput_qrData; assumption).
           cbn [form qrData setQrData]. rewrite payloadOf_setQrData. exact Hp.
      * rewrite (recompute_throws _ e) in Hu' by exact Hp. discriminate.
    + cbn. rewrite applyInput_qrData, quiet_input_payload by exact Hr. exact IH.
  - unfold settle. destruct (lookup id (inflight a)); [|exact IH].
    destruct o; exact IH.
  - now rewrite click_form by apply downloadQR_frame.
  - now rewrite click_form by apply copyQR_frame.
  - now rewrite click_form by apply shareQR_frame.
Qed.

(** X5. In every state the mounted component reaches, the payload cell
    holds what the derivation gives on the current tab and records: the
    payload is never stale after an event has been handled. *)
Theorem payload_follows_form :
  forall a,
    reachable a -> unmounted a = false ->
    payloadOf (form a) = Ok (qrData (form a)).
Proof. exact reachable_payload_consistent. Qed.

Lemma payload_follows_form_witness :
  payloadOf (form onEmailTab) = Ok (qrData (form onEmailTab)).
Proof.
  apply payload_follows_form; [|reflexivity].
  unfold onEmailTab, shown. apply reach_step, reach_step, reach_mount.
Defined.

Lemma In_remove id kr l : In kr (remove id l) -> In kr l.
Proof. unfold remove. intros H. now apply filter_In in H. Qed.

Lemma NoDup_ids_remove id l : NoDup (ids l) -> NoDup (ids (remove id l)).
Proof.
  unfold ids, remove. induction l as [|[k r] l IH]; [trivial|].
  cbn [map fst filter]. intros H. inversion H as [|? ? Hn Hd]; subst.
  destruct (negb (Nat.eqb k id)); [|now apply IH].
  cbn [map fst]. constructor; [|now apply IH].
  intros Hin. apply Hn. apply in_map_iff in Hin as [[k' r'] [E Hin]].
  apply filter_In in Hin as [Hin _]. apply in_map_iff. now exists (k', r').
Qed.

(** X6. Every encode in flight was started with the fixed options (width
    300, margin 2, black on white) on a non-empty text, under an id below
    the next one; no two of them share an id.  The encoder is never called
    on the empty string. *)
Theorem inflight_requests_well_made :
  forall a,
    reachable a ->
    Forall (well_made (fresh a)) (inflight a) /\ NoDup (ids (inflight a)).
Proof.
  induction 1 as [|ev a R [IHf IHn]].
  - split.
    + repeat constructor. cbn. discriminate.
    + repeat constructor. intros [].
  - destruct (step_promises ev a) as [Ei Ef|i _ _ Hne Ei Ef|id o _ _ Ei Ef];
      rewrite Ei, Ef.
    + now split.
    + split.
      * apply Forall_app. split.
        -- eapply Forall_impl; [|exact IHf].
           intros kr [Hlt Hrest]. split; [lia | exact Hrest].
        -- constructor; [|constructor].
           split; [cbn; lia | split; [reflexivity | exact Hne]].
      * unfold ids in *. rewrite map_app. cbn [map fst].
        apply NoDup_app; [exact IHn | repeat constructor; intros [] |].
        intros k Hk [<-|[]].
        apply in_map_iff in Hk as [kr [E Hin]].
        rewrite Forall_forall in IHf. destruct (IHf kr Hin) as [Hlt _]. lia.
    + split; [|now apply NoDup_ids_remove].
      apply Forall_forall. intros kr Hin.
      rewrite Forall_forall in IHf. apply IHf. now apply In_remove in Hin.
Qed.

Lemma inflight_requests_well_made_witness :
  Forall (well_made (fresh onEmailTab)) (inflight onEmailTab)
  /\ NoDup (ids (inflight onEmailTab)).
Proof.
  apply inflight_requests_well_made.
  unfold onEmailTab, shown. apply reach_step, reach_step, reach_mount.
Defined.

(** X7. One event starts at most one encode, and only a user input whose
    re-derivation changes the payload starts one: it is the encode of the
    new, non-empty payload.  Clicks and settled encodes start none. *)
Theorem at_most_one_encode_per_event :
  forall ev a,
    (inflight (step ev a) = inflight a /\ fresh (step ev a) = fresh a)
    \/ (exists id, inflight (step ev a) = remove id (inflight a)
                   /\ fresh (step ev a) = fresh a)
    \/ (exists i,
          ev = UserInput i
          /\ qrData (form (step ev a)) <> qrData (form a)
          /\ qrData (form (step ev a)) <> []
          /\ inflight (step ev a) =
               inflight a ++ [(fresh a, encodeOptions (qrData (form (step ev a))))]
          /\ fresh (step ev a) = S (fresh a)).
Proof.
  intros ev a.
  destruct (step_promises ev a) as [Ei Ef|i E Hd Hne Ei Ef|id o _ _ Ei Ef].
  - left. now split.
  - right. right. exists i. repeat split; assumption.
  - right. left. exists id. now split.
Qed.


(* ===================================================================== *)
(** ** Inputs, tabs and switches *)
(* ===================================================================== *)

Lemma setQrData_same (f : FormState) : setQrData (qrData f) f = f.
Proof. destruct f; reflexivity. Qed.

(** The form after an input whose re-derivation returns. *)
Lemma input_form (a : App) (i : Input) (data : jsstring) :
  unmounted a = false ->
  payloadOf (form a) = Ok (qrData (form a)) ->
  payloadOf (applyInput i (form a)) = Ok data ->
  form (step (UserInput i) a) = setQrData data (applyInput i (form a))
  /\ unmounted (step (UserInput i) a) = false.
Proof.
  intros Hu Hq Hp.
  destruct (recomputes i (form a)) eqn:Hr.
  - destruct (eqb data (qrData (form a))) eqn:Hd.
    + apply eqb_eq in Hd. subst data.
      rewrite (input_same a i Hu Hr Hp). cbn. now split.
    + apply eqb_neq in Hd. rewrite (input_changed a i data Hu Hr Hp Hd).
      now split.
  - unfold step, dispatch. rewrite Hu, Hr. cbn. split; [|exact Hu].
    rewrite (quiet_input_payload i _ Hr), Hq in Hp. injection Hp as <-.
    rewrite <- (applyInput_qrData i (form a)). now rewrite setQrData_same.
Qed.



Lemma other_tab_payload i f k :
  tabOf i = Some k -> k <> activeTab f ->
  payloadOf (applyInput i f) = payloadOf f.
Proof.
  intros Ht Hk. unfold payloadOf.
  destruct i; cbn in Ht; try discriminate; injection Ht as <-;
    cbn; destruct (activeTab f); try reflexivity; congruence.
Qed.

(** X10. The records are independent: an input to a field of another tab
    than the active one changes neither the payload nor the image and
    starts no encode; only the field itself is written. *)
Theorem other_tab_input_keeps_payload :
  forall a i k,
    reachable a -> unmounted a = false ->
    tabOf i = Some k -> k <> activeTab (form a) ->
    let a' := step (UserInput i) a in
    form a' = applyInput i (form a)
    /\ qrData (form a') = qrData (form a)
    /\ qrCode (form a') = qrCode (form a)
    /\ inflight a' = inflight a
    /\ fresh a' = fresh a.
Proof.
  intros a i k R Hu Ht Hk. cbn zeta.
  pose proof (reachable_payload_consistent a R Hu) as Hq.
  pose proof (other_tab_payload i (form a) k Ht Hk) as Hp. rewrite Hq in Hp.
  destruct (input_form a i _ Hu Hq Hp) as [Hf _].
  rewrite <- (applyInput_qrData i (form a)), setQrData_same in Hf.
  rewrite Hf, applyInput_qrData, applyInput_qrCode.
  repeat split.
  - destruct (recomputes i (form a)) eqn:Hr.
    + now rewrite (input_same a i Hu Hr Hp).
    + unfold step, dispatch. now rewrite Hu, Hr.
  - destruct (recomputes i (form a)) eqn:Hr.
    + now rewrite (input_same a i Hu Hr Hp).
    + unfold step, dispatch. now rewrite Hu, Hr.
Qed.

Lemma other_tab_input_keeps_payload_witness :
  let a' := step (UserInput (TypePhone (lit "+123"))) onEmailTab in
  form a' = applyInput (TypePhone (lit "+123")) (form onEmailTab)
  /\ qrData (form a') = qrData (form onEmailTab)
  /\ qrCode (form a') = qrCode (form onEmailTab)
  /\ inflight a' = inflight onEmailTab
  /\ fresh a' = fresh onEmailTab.
Proof.
  apply (other_tab_input_keeps_payload onEmailTab (TypePhone (lit "+123")) phone);
    try reflexivity; try discriminate.
  unfold onEmailTab, shown. apply reach_step, reach_step, reach_mount.
Defined.

(** X11. The records survive a change of tab: going to another tab whose
    derivation returns, and back, gives the form exactly as it was,
    payload and image included. *)
Theorem tab_round_trip :
  forall a k,
    reachable a -> unmounted a = false ->
    ill_formed_text (setActiveTab k (form a)) = false ->
    form (run [UserInput (SelectTab k);
               UserInput (SelectTab (activeTab (form a)))] a) = form a.
Proof.
  intros a k R Hu Hk. cbn [run fold_left].
  pose proof (reachable_payload_consistent a R Hu) as Hq.
  pose proof (payloadOf_cases (setActiveTab k (form a))) as D.
  destruct (payloadOf (setActiveTab k (form a))) as [d1|err] eqn:Hp1;
    [|destruct D; congruence].
  destruct (input_form a (SelectTab k) d1 Hu Hq Hp1) as [F1 U1].
  set (a1 := step (UserInput (SelectTab k)) a) in *.
  assert (Hq1 : payloadOf (form a1) = Ok (qrData (form a1)))
    by (rewrite F1; exact Hp1).
  assert (Hp2 : payloadOf (applyInput (SelectTab (activeTab (form a))) (form a1))
                = Ok (qrData (form a))).
  { rewrite F1, <- Hq. destruct (form a); reflexivity. }
  destruct (input_form a1 _ _ U1 Hq1 Hp2) as [F2 _].
  rewrite F2, F1. destruct (form a); reflexivity.
Qed.

Lemma tab_round_trip_witness :
  form (run [UserInput (SelectTab wifi);
             UserInput (SelectTab (activeTab (form onEmailTab)))] onEmailTab)
  = form onEmailTab.
Proof.
  apply (tab_round_trip onEmailTab wifi); try reflexivity.
  unfold onEmailTab, shown. apply reach_step, reach_step, reach_mount.
Defined.



Lemma lookup_remove_same id l : lookup id (remove id l) = None.
Proof.
  induction l as [|[k r] l IH]; [reflexivity|].
  cbn [remove filter fst]. destruct (Nat.eqb k id) eqn:E; cbn [negb].
  - exact IH.
  - cbn [lookup]. rewrite E. exact IH.
Qed.

(** An encode settles once: after the promise of an id has been
    fulfilled or rejected, a second settlement of the same id changes
    nothing, so each result is written at most once. *)
Lemma encode_settles_once :
  forall a id o o',
    step (EncodeSettled id o') (step (EncodeSettled id o) a)
    = step (EncodeSettled id o) a.
Proof.
  intros a id o o'.
  destruct (unmounted a) eqn:Hu.
  { now rewrite (unmounted_stays (EncodeSettled id o) a Hu),
                (unmounted_stays (EncodeSettled id o') a Hu). }
  assert (E : step (EncodeSettled id o) a = settle id o a)
    by (unfold step; now rewrite Hu).
  rewrite E. unfold settle. destruct (lookup id (inflight a)) eqn:Hl.
  - assert (L : forall a', inflight a' = remove id (inflight a) ->
                           step (EncodeSettled id o') a' = a').
    { intros a' Ea. unfold step. destruct (unmounted a'); [reflexivity|].
      unfold settle. now rewrite Ea, lookup_remove_same. }
    destruct o; apply L; reflexivity.
  - unfold step. rewrite Hu. unfold settle. now rewrite Hl.
Qed.

(** *** The two option switches *)




Lemma payloadOf_applyInput_without_switches i f :
  payloadOf (applyInput i (setTrackScans false (setRemoveWatermark false f)))
  = payloadOf (applyInput i f).
Proof. destruct i; reflexivity. Qed.






(* ===================================================================== *)
(** ** What the three buttons give *)
(* ===================================================================== *)

Lemma fileName_tab f g : fileName f = fileName g -> activeTab f = activeTab g.
Proof.
  unfold fileName. destruct (activeTab f), (activeTab g);
    intros H; try reflexivity; discriminate H.
Qed.

(** X14. With an image shown, a click on Download saves exactly that image
    under the name [qr-code-<tab>.png] of the active tab and emits the one
    notice [QR Code Downloaded]; nothing else changes, and the names of two
    different tabs differ. *)
Theorem download_saves_shown_image :
  forall a,
    unmounted a = false ->
    qrCode (form a) <> [] ->
    step ClickDownload a =
      with_outbox
        (fun o => o ++ [SaveAs (lit "qr-code-" +++ QRType_name (activeTab (form a))
                                +++ lit ".png") (qrCode (form a));
                        Notice downloadedToast]) a
    /\ (forall g, fileName g = fileName (form a) ->
                  activeTab g = activeTab (form a)).
Proof.
  intros a Hu Hq. split; [|intros g; apply fileName_tab].
  apply truthy_nonempty in Hq.
  unfold step, click, downloadQR. rewrite Hu, Hq.
  unfold Act.bind, Act.emit, Act.toast, Act.emit, with_outbox. cbn.
  now rewrite <- app_assoc.
Qed.

Lemma download_saves_shown_image_witness :
  step ClickDownload shown =
    with_outbox
      (fun o => o ++ [SaveAs (lit "qr-code-url.png") (qrCode (form shown));
                      Notice downloadedToast]) shown
  /\ (forall g, fileName g = fileName (form shown) ->
                activeTab g = activeTab (form shown)).
Proof.
  apply (download_saves_shown_image shown); [reflexivity | discriminate].
Defined.

(** X15. With an image shown, a click on Copy always ends in exactly one
    notice: [QR Code Copied] when fetch, blob and clipboard write all go
    through, in which case the clipboard was given one [image/png] item
    holding the fetched blob, and [Copy Failed] otherwise. *)
Theorem copy_gives_one_notice :
  forall p a,
    unmounted a = false ->
    qrCode (form a) <> [] ->
    notices (outbox (step (ClickCopy p) a))
      = notices (outbox a)
        ++ [if copy_fails p (form a) then copyFailedToast else copiedToast]
    /\ (copy_fails p (form a) = false ->
        exists r b,
          fetch p (qrCode (form a)) = Fulfilled r
          /\ blob p r = Fulfilled b
          /\ outbox (step (ClickCopy p) a)
             = outbox a ++ [ToClipboard [ {| ci_type := lit "image/png";
                                              ci_blob := b |} ];
                            Notice copiedToast]).
Proof.
  intros p a Hu Hq. apply truthy_nonempty in Hq.
  unfold step. rewrite Hu, click_returns by apply copyQR_returns.
  unfold copyQR, copy_fails. rewrite Hq.
  unfold Act.try_catch, Act.bind, Act.await, Act.toast, Act.emit.
  destruct (fetch p (qrCode (form a))) as [r|];
    [|cbn; rewrite notices_app; split; [reflexivity | discriminate]].
  destruct (blob p r) as [b|] eqn:Eb;
    [|cbn; rewrite notices_app; split; [reflexivity | discriminate]].
  cbn. destruct (clipboard_write p _) as [[]|]; cbn.
  - split.
    + rewrite !notices_app. cbn. now rewrite app_nil_r.
    + intros _. exists r, b. split; [reflexivity|]. split; [exact Eb|].
      now rewrite <- app_assoc.
  - split; [|discriminate].
    rewrite !notices_app. cbn. now rewrite app_nil_r.
Qed.

Lemma copy_gives_one_notice_witness :
  notices (outbox (step (ClickCopy goodPlatform) shown))
    = notices (outbox shown)
      ++ [if copy_fails goodPlatform (form shown)
          then copyFailedToast else copiedToast]
  /\ exists r b,
       fetch goodPlatform (qrCode (form shown)) = Fulfilled r
       /\ blob goodPlatform r = Fulfilled b
       /\ outbox (step (ClickCopy goodPlatform) shown)
          = outbox shown ++ [ToClipboard [ {| ci_type := lit "image/png";
                                              ci_blob := b |} ];
                             Notice copiedToast].
Proof.
  destruct (copy_gives_one_notice goodPlatform shown) as [H1 H2];
    [reflexivity | discriminate |].
  split; [exact H1 | apply H2; reflexivity].
Defined.

(** X16. With an image shown and [navigator.share] present, a click on
    Share that goes through is silent (no notice at all) and a failed one
    gives the one notice [Share Failed]; what is handed to the share
    sheet, once fetch and blob have gone through, is the title [QR Code]
    and one [image/png] file named as the download would be. *)
Theorem share_is_silent_on_success :
  forall p a,
    unmounted a = false ->
    qrCode (form a) <> [] ->
    has_share p = true ->
    notices (outbox (step (ClickShare p) a))
      = notices (outbox a)
        ++ (if share_fails p (form a) then [shareFailedToast] else [])
    /\ (forall r b,
          fetch p (qrCode (form a)) = Fulfilled r ->
          blob p r = Fulfilled b ->
          In (ToShare {| sd_title := lit "QR Code";
                         sd_files := [ {| f_bits := [b];
                                          f_name := fileName (form a);
                                          f_type := lit "image/png" |} ] |})
             (outbox (step (ClickShare p) a))).
Proof.
  intros p a Hu Hq Hs. apply truthy_nonempty in Hq.
  unfold step. rewrite Hu, click_returns by apply shareQR_returns.
  unfold shareQR, share_fails. rewrite Hq, Hs. cbn [andb].
  unfold Act.try_catch, Act.bind, Act.await, Act.toast, Act.emit.
  destruct (fetch p (qrCode (form a))) as [r|];
    [|cbn; rewrite notices_app; split; [reflexivity | discriminate]].
  destruct (blob p r) as [b|] eqn:Eb;
    [|cbn; rewrite notices_app; split;
      [reflexivity | intros r' b' [= <-] Hb; congruence]].
  cbn. destruct (share p _) as [[]|]; cbn.
  - split.
    + rewrite !notices_app. cbn. now rewrite !app_nil_r.
    + intros r' b' [= <-] Hb. rewrite Eb in Hb. injection Hb as <-.
      apply in_or_app. right. now left.
  - split.
    + rewrite !notices_app. cbn. now rewrite app_nil_r.
    + intros r' b' [= <-] Hb. rewrite Eb in Hb. injection Hb as <-.
      apply in_or_app. left. apply in_or_app. right. now left.
Qed.

Lemma share_is_silent_on_success_witness :
  notices (outbox (step (ClickShare goodPlatform) shown))
    = notices (outbox shown)
      ++ (if share_fails goodPlatform (form shown) then [shareFailedToast] else [])
  /\ In (ToShare {| sd_title := lit "QR Code";
                    sd_files := [ {| f_bits := [qrCode (form shown)];
                                     f_name := fileName (form shown);
                                     f_type := lit "image/png" |} ] |})
        (outbox (step (ClickShare goodPlatform) shown)).
Proof.
  destruct (share_is_silent_on_success goodPlatform shown) as [H1 H2];
    [reflexivity | discriminate | reflexivity |].
  split; [exact H1 | apply (H2 (pngOf (qrCode (form shown)))); reflexivity].
Defined.
